(** * Transport NSW component: journey utilities, trip client, realtime feed cache

    A shallow embedding of the [transportnsw] custom component:

    - [transportnsw_client/model.py]: the trip response model;
    - [transportnsw_client/utils.py]: leg and fare selection;
    - [transportnsw_client/__init__.py]: request construction of [get_trip];
    - [__init__.py]: [GTFSCache] and the coordinator's [async_update_data].

    Python exceptions are values of [exn]; a function that may raise returns a
    [result].  Code that talks to the network, reads the clock or keeps the
    memoisation table of [functools.lru_cache] runs in the state monad [M]. *)

From stdpp Require Import base option list strings gmap pretty.
From Stdlib Require Import ZArith QArith Qround Lia.

Open Scope Z_scope.
Open Scope string_scope.

(** ** Exceptions and results *)

Inductive exn : Type :=
| AttributeError (msg : string)
| AssertionError (msg : string)
| KeyError (key : string)
| HTTPError (status : Z)
| ValidationError (msg : string)
| DecodeError (msg : string).

Inductive result (A : Type) : Type :=
| Ok (a : A)
| Raise (e : exn).

Arguments Ok {A} a.
Arguments Raise {A} e.

(** ** model.py *)

Module Model.

Record Decimal : Type := mkDecimal {
  coefficient : Z;
  exponent : Z
}.

(** A naive calendar instant, enough for [strftime] with the two formats the
    client uses. *)
Record datetime : Type := mkDatetime {
  year : nat;
  month : nat;
  day : nat;
  hour : nat;
  minute : nat
}.

Record JourneyFareTicket : Type := mkTicket {
  ticket_id : string;
  ticket_name : string;
  comment : string;
  person : string;
  priceLevel : option string;
  priceBrutto : Decimal
}.

Record Fare : Type := mkFare {
  tickets : list JourneyFareTicket;
  zones : option (list unit)
}.

Record JourneyLegStopInfo : Type := mkStopInfo {
  info_priority : string;
  info_id : string;
  info_version : Z;
  urlText : option string;
  url : option string;
  content : option string;
  subtitle : option string
}.

Record JourneyLegStop : Type := mkStop {
  stop_id : string;
  stop_name : string;
  stop_disassembledName : option string;
  stop_type : string;
  departureTimeEstimated : option datetime;
  departureTimePlanned : option datetime;
  arrivalTimeEstimated : option datetime;
  arrivalTimePlanned : option datetime;
  occupancy : option string
}.

Inductive RouteProductClass : Type :=
| TRAIN
| LIGHT_RAIL
| BUS
| COACH
| FERRY
| SCHOOL_BUS
| WALKING
| WALKING_FOOTPATH
| BICYCLE
| TAKE_BICYCLE_ON_PUBLIC_TRANSPORT
| KISS_AND_RIDE
| PARK_AND_RIDE
| TAXI
| CAR.

(** The [value] of each member of the enumeration. *)
Definition value (k : RouteProductClass) : Z :=
  match k with
  | TRAIN => 1
  | LIGHT_RAIL => 4
  | BUS => 5
  | COACH => 7
  | FERRY => 9
  | SCHOOL_BUS => 11
  | WALKING => 99
  | WALKING_FOOTPATH => 100
  | BICYCLE => 101
  | TAKE_BICYCLE_ON_PUBLIC_TRANSPORT => 102
  | KISS_AND_RIDE => 103
  | PARK_AND_RIDE => 104
  | TAXI => 105
  | CAR => 106
  end.

#[global] Instance RouteProductClass_eq_dec : EqDecision RouteProductClass.
Proof. solve_decision. Defined.

Record RouteProduct : Type := mkProduct {
  product_name : string;
  klass : RouteProductClass;
  product_iconId : Z
}.

Record TripTransportation : Type := mkTransportation {
  tr_id : option string;
  tr_name : option string;
  disassembledName : option string;
  number : option string;
  tr_iconId : option Z;
  description : option string;
  product : RouteProduct;
  realtime_trip_id : option string
}.

Record JourneyLeg : Type := mkLeg {
  duration : Z;
  distance : option Z;
  isRealtimeControlled : option bool;
  origin : JourneyLegStop;
  destination : JourneyLegStop;
  transportation : option TripTransportation;
  infos : list JourneyLegStopInfo
}.

Record Journey : Type := mkJourney {
  rating : option Z;
  isAdditional : Z;
  legs : list JourneyLeg;
  fare : Fare
}.

Record TripRequestResponse : Type := mkResponse {
  version : string;
  journeys : list Journey
}.

End Model.

Import Model.

(** ** Python values compared by [==]

    [count_trip_changes] tests an enumeration member against a tuple of
    integers.  [RouteProductClass] derives from [Enum], not [IntEnum]: a member
    equals itself only, never its integer [value]. *)

Inductive PyVal : Type :=
| PyInt (n : Z)
| PyEnum (k : RouteProductClass).

Definition py_eq (a b : PyVal) : bool :=
  match a, b with
  | PyInt x, PyInt y => bool_decide (x = y)
  | PyEnum x, PyEnum y => bool_decide (x = y)
  | _, _ => false
  end.

(** [x in t] for a tuple [t]. *)
Definition py_in (x : PyVal) (t : list PyVal) : bool :=
  existsb (py_eq x) t.

(** ** utils.py *)

Module Utils.

(** [leg.transportation.product.klass]: attribute access on [None] raises. *)
Definition leg_klass (leg : JourneyLeg) : result RouteProductClass :=
  match transportation leg with
  | None => Raise (AttributeError "NoneType object has no attribute product")
  | Some tr => Ok (klass (product tr))
  end.

Fixpoint get_first_nonwalking_leg (legs : list JourneyLeg)
  : result (option JourneyLeg) :=
  match legs with
  | [] => Ok None
  | leg :: rest =>
      match leg_klass leg with
      | Raise e => Raise e
      | Ok k =>
          if negb (py_in (PyEnum k) [PyEnum WALKING; PyEnum WALKING_FOOTPATH])
          then Ok (Some leg)
          else get_first_nonwalking_leg rest
      end
  end.

(** The loop of [count_trip_changes], with the running value of [changes]. *)
Fixpoint count_trip_changes_loop (legs : list JourneyLeg) (changes : Z)
  : result Z :=
  match legs with
  | [] => Ok changes
  | leg :: rest =>
      match leg_klass leg with
      | Raise e => Raise e
      | Ok k =>
          if negb (py_in (PyEnum k) [PyInt 99; PyInt 100])
          then count_trip_changes_loop rest (changes + 1)
          else count_trip_changes_loop rest changes
      end
  end.

Definition count_trip_changes (legs : list JourneyLeg) : result Z :=
  count_trip_changes_loop legs (-1).

Fixpoint get_ticket (tickets : list JourneyFareTicket) (p : string)
  : option JourneyFareTicket :=
  match tickets with
  | [] => None
  | ticket :: rest =>
      if bool_decide (person ticket = p) then Some ticket
      else get_ticket rest p
  end.

Definition get_gtfs_mode (k : RouteProductClass) : option string :=
  if bool_decide (k = BUS) then Some "buses"
  else if bool_decide (k = FERRY) then Some "ferries"
  else if bool_decide (k = LIGHT_RAIL) then Some "lightrail"
  else if bool_decide (k = TRAIN) then Some "sydneytrains"
  else None.

End Utils.

Import Utils.

(** ** Specification vocabulary *)

(** A leg is non-walking when it carries a transportation whose product class
    is neither [WALKING] nor [WALKING_FOOTPATH]. *)
Definition nonwalking (leg : JourneyLeg) : Prop :=
  exists tr, transportation leg = Some tr
             /\ klass (product tr) <> WALKING
             /\ klass (product tr) <> WALKING_FOOTPATH.

Definition nonwalkingb (leg : JourneyLeg) : bool :=
  match transportation leg with
  | Some tr =>
      negb (bool_decide (klass (product tr) = WALKING))
      && negb (bool_decide (klass (product tr) = WALKING_FOOTPATH))
  | None => false
  end.

Definition has_transportation (leg : JourneyLeg) : Prop :=
  is_Some (transportation leg).

(** ** The world the component runs in

    The component reads the clock and sends HTTP requests.  Both are taken
    from an environment [Env]: the n-th reading of each clock and the answer of
    the server to the n-th request sent.  The mutable part is [World]. *)

(** A value in the [params] dictionary handed to [requests.get]. *)
Inductive param : Type :=
| PStr (s : string)
| PNum (n : Z).

Record Request : Type := mkRequest {
  req_url : string;
  req_params : gmap string param;
  req_headers : list (string * string)
}.

(** One entity of a decoded vehicle position feed. *)
Record FeedEntity : Type := mkEntity {
  entity_id : string;
  trip_id : string;
  latitude : Q;
  longitude : Q
}.

Record FeedMessage : Type := mkFeed {
  entity : list FeedEntity
}.

(** What a response body decodes to: [resp.json()] accepted by the pydantic
    model, a protobuf feed, or neither. *)
Inductive payload : Type :=
| TripPayload (r : TripRequestResponse)
| FeedPayload (f : FeedMessage)
| Garbage.

Record Response : Type := mkHttpResponse {
  status_code : Z;
  body : payload
}.

Record Env : Type := mkEnv {
  time_time : nat -> Q;
  datetime_now : nat -> datetime;
  http_get : nat -> Request -> Response
}.

(** The key [lru_cache] builds for [_get_gtfs_feed(self, mode=.., ttl_hash=..)]
    of the one [GTFSCache] instance. *)
Definition cache_key : Type := (string * Z)%type.

Record World : Type := mkWorld {
  sent : list Request;
  clock_reads : nat;
  lru : list (cache_key * FeedMessage)
}.

Definition world0 : World := mkWorld [] 0 [].

(** ** State and exception monad *)

Definition M (A : Type) : Type := World -> result A * World.

Definition ret {A} (a : A) : M A := fun w => (Ok a, w).

Definition raise {A} (e : exn) : M A := fun w => (Raise e, w).

Definition bind {A B} (c : M A) (k : A -> M B) : M B :=
  fun w =>
    match c w with
    | (Ok a, w') => k a w'
    | (Raise e, w') => (Raise e, w')
    end.

Definition lift {A} (r : result A) : M A := fun w => (r, w).

Declare Scope py_scope.
Delimit Scope py_scope with py.
Notation "'let*' x ':=' c 'in' k" := (bind c (fun x => k))
  (at level 10, x name, c at level 200, k at level 200) : py_scope.
Notation "'exec' c 'in' k" := (bind c (fun _ => k))
  (at level 10, c at level 200, k at level 200) : py_scope.
Open Scope py_scope.

(** ** transportnsw_client/__init__.py *)

Module Client.

Definition excl_mot_map : gmap string string :=
  list_to_map
    [ ("train", "exclMOT_1");
      ("light_rail", "exclMOT_4");
      ("bus", "exclMOT_5");
      ("coach", "exclMOT_7");
      ("ferry", "exclMOT_9");
      ("school_bus", "exclMOT_11") ].

(** [for entry in entries: params[excl_mot_map[entry]] = "1"]; a subscript
    with an unknown key raises [KeyError]. *)
Fixpoint set_exclusions (entries : list string) (params : gmap string param)
  : result (gmap string param) :=
  match entries with
  | [] => Ok params
  | entry :: rest =>
      match excl_mot_map !! entry with
      | None => Raise (KeyError entry)
      | Some code => set_exclusions rest (<[code := PStr "1"]> params)
      end
  end.

Definition get_exclude_mot_params
  (include_mot exclude_mot : option (list string))
  : result (gmap string param) :=
  let params : gmap string param := ∅ in
  match include_mot with
  | Some (m :: ms) =>
      let exclude : gset string := dom excl_mot_map ∖ list_to_set (m :: ms) in
      let params := <["excludedMeans" := PStr "checkbox"]> params in
      set_exclusions (elements exclude) params
  | _ =>
      match exclude_mot with
      | Some mots =>
          let params := <["excludedMeans" := PStr "checkbox"]> params in
          set_exclusions mots params
      | None => Ok params
      end
  end.

(** [str.zfill] on a rendered number, as [%m], [%d], [%H], [%M] pad. *)
Definition zfill (width : nat) (n : nat) : string :=
  let s := pretty n in
  String.concat "" (replicate (width - String.length s) "0") ++ s.

(** [itd.strftime("%Y%m%d")]: [%Y] is the year in decimal, not padded (the
    year 987 is rendered "987"); month and day take two digits. *)
Definition strftime_Ymd (d : datetime) : string :=
  pretty (year d) ++ zfill 2 (month d) ++ zfill 2 (day d).

Definition strftime_HM (d : datetime) : string :=
  zfill 2 (hour d) ++ zfill 2 (minute d).

(** [datetime.datetime.now()]. *)
Definition now (env : Env) : M datetime :=
  fun w =>
    (Ok (datetime_now env (clock_reads w)),
     mkWorld (sent w) (S (clock_reads w)) (lru w)).

(** [requests.get(url, params=.., headers=..)]. *)
Definition requests_get (env : Env) (url : string)
  (params : gmap string param) (headers : list (string * string))
  : M Response :=
  fun w =>
    let req := mkRequest url params headers in
    (Ok (http_get env (length (sent w)) req),
     mkWorld (sent w ++ [req]) (clock_reads w) (lru w)).

Definition raise_for_status (resp : Response) : M unit :=
  if bool_decide (400 <= status_code resp < 600)
  then raise (HTTPError (status_code resp))
  else ret tt.

Definition trip_url : string := "https://api.transport.nsw.gov.au/v1/tp/trip".

Definition feed_url (mode : string) : string :=
  "https://api.transport.nsw.gov.au/v1/gtfs/vehiclepos/" ++ mode.

Definition auth_headers (api_key : string) : list (string * string) :=
  [("Authorization", "apikey " ++ api_key)].

Definition trip_params (origin destination : string) (num_journeys : Z)
  (arrive_by : option datetime) (itd : datetime)
  (exclude_mot_params : gmap string param) : gmap string param :=
  exclude_mot_params ∪
  list_to_map
    [ ("outputFormat", PStr "rapidJSON");
      ("depArrMacro", PStr (if arrive_by is Some _ then "arr" else "dep"));
      ("itdDate", PStr (strftime_Ymd itd));
      ("itdTime", PStr (strftime_HM itd));
      ("type_origin", PStr "any");
      ("type_destination", PStr "any");
      ("name_origin", PStr origin);
      ("name_destination", PStr destination);
      ("calcNumberOfTrips", PNum num_journeys);
      ("version", PStr "10.2.1.42");
      ("TfNSWTR", PStr "true") ].

Definition get_trip (env : Env) (api_key origin destination : string)
  (num_journeys : Z) (depart_at arrive_by : option datetime)
  (include_mot exclude_mot : option (list string))
  : M TripRequestResponse :=
  if bool_decide (is_Some depart_at) && bool_decide (is_Some arrive_by)
  then raise (AssertionError "Unable to specify both depart_at and arrive_by")
  else if bool_decide (is_Some include_mot) && bool_decide (is_Some exclude_mot)
  then raise (AssertionError "Unable to specify both include_mot and exclude_mot")
  else
    let* exclude_mot_params := lift (get_exclude_mot_params include_mot exclude_mot) in
    let* itd := match depart_at, arrive_by with
              | Some d, _ => ret d
              | None, Some a => ret a
              | None, None => now env
              end in
    let params :=
      trip_params origin destination num_journeys arrive_by itd
        exclude_mot_params in
    let* resp := requests_get env trip_url params (auth_headers api_key) in
    exec raise_for_status resp in
    match body resp with
    | TripPayload r => ret r
    | _ => raise (ValidationError "TripRequestResponse")
    end.

Definition get_realtime_feed (env : Env) (api_key mode : string)
  : M FeedMessage :=
  let* resp := requests_get env (feed_url mode) ∅ (auth_headers api_key) in
  exec raise_for_status resp in
  match body resp with
  | FeedPayload f => ret f
  | _ => raise (DecodeError "FeedMessage")
  end.

End Client.

Import Client.

(** ** __init__.py: the realtime feed cache *)

Module Cache.

(** Python's [round] on a number: to the nearest integer, a tie going to the
    even neighbour.  The clock reading is taken as an exact rational; the
    binary rounding of the float division is not modelled. *)
Definition py_round (q : Q) : Z :=
  let f := Qfloor q in
  match Qcompare (q - inject_Z f) (1 # 2) with
  | Lt => f
  | Gt => f + 1
  | Eq => if Z.even f then f else f + 1
  end.

(** [round(time.time() / 60)]. *)
Definition ttl_hash (t : Q) : Z := py_round (t / 60).

(** The bucket the specification names: [floor(now / 60s)]. *)
Definition floor_bucket (t : Q) : Z := Qfloor (t / 60).

(** [functools.lru_cache()] keeps at most [maxsize = 128] results. *)
Definition lru_maxsize : nat := 128.

Definition key_eqb (a b : cache_key) : bool := bool_decide (a = b).

(** The table is kept most recently used first. *)
Fixpoint lru_find (key : cache_key) (table : list (cache_key * FeedMessage))
  : option FeedMessage :=
  match table with
  | [] => None
  | (k, v) :: rest => if key_eqb key k then Some v else lru_find key rest
  end.

Fixpoint lru_remove (key : cache_key) (table : list (cache_key * FeedMessage))
  : list (cache_key * FeedMessage) :=
  match table with
  | [] => []
  | (k, v) :: rest =>
      if key_eqb key k then rest else (k, v) :: lru_remove key rest
  end.

(** A miss stores the new result; a full table first drops its oldest
    entry. *)
Definition lru_store (key : cache_key) (v : FeedMessage)
  (table : list (cache_key * FeedMessage)) : list (cache_key * FeedMessage) :=
  if bool_decide (lru_maxsize <= length table)%nat
  then (key, v) :: removelast table
  else (key, v) :: table.

Definition set_lru (table : list (cache_key * FeedMessage)) (w : World)
  : World :=
  mkWorld (sent w) (clock_reads w) table.

(** [_get_gtfs_feed] under its [@lru_cache()] wrapper: a hit moves the entry to
    the front and calls nothing; a miss calls the wrapped function and stores
    its result, and stores nothing when the call raises. *)
Definition _get_gtfs_feed (env : Env) (api_key mode : string) (ttl : Z)
  : M FeedMessage :=
  fun w =>
    let key := (mode, ttl) in
    match lru_find key (lru w) with
    | Some v => (Ok v, set_lru ((key, v) :: lru_remove key (lru w)) w)
    | None =>
        match get_realtime_feed env api_key mode w with
        | (Ok v, w') => (Ok v, set_lru (lru_store key v (lru w')) w')
        | (Raise e, w') => (Raise e, w')
        end
    end.

(** [time.time()]. *)
Definition time (env : Env) : M Q :=
  fun w =>
    (Ok (time_time env (clock_reads w)),
     mkWorld (sent w) (S (clock_reads w)) (lru w)).

(** [get_gtfs_feed] holds [self._lock] for the whole call, so calls from
    several threads run one after the other: a call is one step of [M]. *)
Definition get_gtfs_feed (env : Env) (api_key mode : string)
  : M FeedMessage :=
  let* t := time env in
  _get_gtfs_feed env api_key mode (ttl_hash t).

End Cache.

Import Cache.

(** ** __init__.py: the coordinator's update *)

Module Coordinator.

Record Trip : Type := mkTrip {
  conf_name : string;
  conf_stop_id : string;
  conf_destination_stop_id : string;
  conf_num_journeys : Z;
  conf_fare_type : string;
  conf_modes_of_transport : option (list string)
}.

(** [find_realtime_info] of utils.py, on [feed.entity]; it stands here, after
    the feed types.  Falling off the loop returns [None]. *)
Fixpoint find_realtime_info (entities : list FeedEntity)
  (realtime_trip_id : string) : option FeedEntity :=
  match entities with
  | [] => None
  | e :: rest =>
      if bool_decide (trip_id e = realtime_trip_id) then Some e
      else find_realtime_info rest realtime_trip_id
  end.

(** [origin_leg.transportation.<attr>]. *)
Definition leg_transportation (leg : JourneyLeg) : M TripTransportation :=
  match transportation leg with
  | Some tr => ret tr
  | None =>
      raise (AttributeError "NoneType object has no attribute properties")
  end.

(** The body of the loop over [resp.journeys], for one journey. *)
Definition hydrate_journey (env : Env) (api_key : string) (journey : Journey)
  : M (Journey * option FeedEntity) :=
  let* origin_leg := lift (get_first_nonwalking_leg (legs journey)) in
  match origin_leg with
  | None => ret (journey, None)
  | Some leg =>
      let* tr := leg_transportation leg in
      match realtime_trip_id tr, get_gtfs_mode (klass (product tr)) with
      | Some rid, Some mode =>
          let* feed := get_gtfs_feed env api_key mode in
          ret (journey, find_realtime_info (entity feed) rid)
      | _, _ => ret (journey, None)
      end
  end.

(** The loop, with [res] the list built so far. *)
Fixpoint hydrate (env : Env) (api_key : string) (js : list Journey)
  (res : list (Journey * option FeedEntity))
  : M (list (Journey * option FeedEntity)) :=
  match js with
  | [] => ret res
  | journey :: rest =>
      let* pair := hydrate_journey env api_key journey in
      hydrate env api_key rest (res ++ [pair])
  end.

Definition async_update_data (env : Env) (api_key : string) (trip : Trip)
  : M (list (Journey * option FeedEntity)) :=
  let* resp :=
    get_trip env api_key (conf_stop_id trip) (conf_destination_stop_id trip)
      (conf_num_journeys trip) None None (conf_modes_of_transport trip) None in
  hydrate env api_key (journeys resp) [].

End Coordinator.

Import Coordinator.

(** ** Vocabulary for the cache and the update *)

(** The request [get_realtime_feed] sends for [mode]. *)
Definition feed_request (api_key mode : string) : Request :=
  mkRequest (feed_url mode) ∅ (auth_headers api_key).

(** The server answers the [n]-th request, when it is the feed request for
    [mode], with a decodable feed and a status that is not an error. *)
Definition serves (env : Env) (api_key mode : string) (n : nat)
  (feed : FeedMessage) : Prop :=
  exists st, http_get env n (feed_request api_key mode)
             = mkHttpResponse st (FeedPayload feed)
             /\ ~ (400 <= st < 600).


(** Two calls of [get_gtfs_feed] for one mode, one after the other. *)
Definition two_calls (env : Env) (api_key mode : string)
  : M (FeedMessage * FeedMessage) :=
  let* a := get_gtfs_feed env api_key mode in
  let* b := get_gtfs_feed env api_key mode in
  ret (a, b).

(** The journeys for which the update looks nothing up: no non-walking leg,
    or one without realtime trip id, or one whose class has no realtime
    mode. *)
Definition no_realtime (j : Journey) : Prop :=
  get_first_nonwalking_leg (legs j) = Ok None
  \/ exists leg tr,
       get_first_nonwalking_leg (legs j) = Ok (Some leg)
       /\ transportation leg = Some tr
       /\ (realtime_trip_id tr = None
           \/ get_gtfs_mode (klass (product tr)) = None).

(** ** Sample data *)

Module Samples.

Definition a_stop (name : string) : JourneyLegStop :=
  mkStop name name None "stop" None None None None None.

Definition a_transportation (k : RouteProductClass) (rid : option string)
  : TripTransportation :=
  mkTransportation None None None None None None (mkProduct "product" k 0) rid.

Definition a_leg (from to : string) (tr : option TripTransportation)
  : JourneyLeg :=
  mkLeg 60 None None (a_stop from) (a_stop to) tr [].

Definition walk_leg : JourneyLeg :=
  a_leg "home" "stop A" (Some (a_transportation WALKING None)).

Definition footpath_leg : JourneyLeg :=
  a_leg "stop C" "office" (Some (a_transportation WALKING_FOOTPATH None)).

Definition bus_leg : JourneyLeg :=
  a_leg "stop A" "stop B" (Some (a_transportation BUS (Some "T1"))).

Definition train_leg : JourneyLeg :=
  a_leg "stop B" "stop C" (Some (a_transportation TRAIN (Some "T2"))).

Definition taxi_leg : JourneyLeg :=
  a_leg "stop A" "stop B" (Some (a_transportation TAXI (Some "T3"))).

(** A leg without transportation, as the model's default allows. *)
Definition bare_leg : JourneyLeg := a_leg "home" "stop A" None.

Definition a_ticket (who : string) (cents : Z) : JourneyFareTicket :=
  mkTicket ("id-" +:+ who) who "" who None (mkDecimal cents (-2)).

Definition a_journey (ls : list JourneyLeg) : Journey :=
  mkJourney None 0 ls (mkFare [a_ticket "ADULT" 450] None).

(** Environments: the clock shows [times] in turn and the server answers
    with [answer]. *)
Definition an_env (times : list Q) (answer : nat -> Request -> Response)
  : Env :=
  mkEnv (fun n => nth n times 0%Q) (fun _ => mkDatetime 2024 3 7 8 30) answer.

Definition a_feed (label : string) : FeedMessage :=
  mkFeed [mkEntity label "T1" (-338 # 10) (1512 # 10)].

(** Every request is answered 200; the feed served carries the number of the
    request in its entity id, so that two fetches are told apart. *)
Definition feed_server (n : nat) (r : Request) : Response :=
  mkHttpResponse 200 (FeedPayload (a_feed (pretty n))).

(** The trip endpoint answers with [resp]; the feed endpoints answer with
    status [feed_status]. *)
Definition trip_server (resp : TripRequestResponse) (feed_status : Z)
  (n : nat) (r : Request) : Response :=
  if bool_decide (req_url r = trip_url)
  then mkHttpResponse 200 (TripPayload resp)
  else mkHttpResponse feed_status (FeedPayload (a_feed "vehicle")).

Definition two_journeys : TripRequestResponse :=
  mkResponse "10.2.1.42"
    [a_journey [walk_leg; bus_leg; footpath_leg]; a_journey [walk_leg]].


Definition a_trip (modes : option (list string)) : Trip :=
  mkTrip "commute" "10101100" "10101200" 1 "ADULT" modes.

Definition all_codes : list string :=
  ["exclMOT_1"; "exclMOT_4"; "exclMOT_5"; "exclMOT_7"; "exclMOT_9";
   "exclMOT_11"].

End Samples.

Import Samples.

Open Scope list_scope.

(** ** Further vocabulary for the client and the cache *)

(** [depart_at or arrive_by or datetime.datetime.now()], the clock being at
    its reading number [n]. *)
Definition search_time (env : Env) (depart_at arrive_by : option datetime)
  (n : nat) : datetime :=
  match depart_at, arrive_by with
  | Some d, _ => d
  | None, Some a => a
  | None, None => datetime_now env n
  end.

(** The instants a [datetime.datetime] can hold: years 1 to 9999, months 1 to
    12, days 1 to 31, hours 0 to 23, minutes 0 to 59. *)
Definition valid_datetime (d : datetime) : Prop :=
  1 <= Z.of_nat (year d) <= 9999 /\ (1 <= month d <= 12)%nat
  /\ (1 <= day d <= 31)%nat /\ (hour d <= 23)%nat /\ (minute d <= 59)%nat.

(** [e] is the [KeyError] of an exclusion list that names a mode the table
    does not know. *)
Definition unknown_mode_error (exclude_mot : option (list string)) (e : exn)
  : Prop :=
  exists mots bad,
    exclude_mot = Some mots /\ bad ∈ mots /\ excl_mot_map !! bad = None
    /\ e = KeyError bad.

(** The request of a call of [get_trip] that passes the two guards, [p] being
    the exclusion parameters. *)
Definition the_trip_request (env : Env) (api_key origin destination : string)
  (n : Z) (depart_at arrive_by : option datetime) (p : gmap string param)
  (w : World) : Request :=
  mkRequest trip_url
    (trip_params origin destination n arrive_by
       (search_time env depart_at arrive_by (clock_reads w)) p)
    (auth_headers api_key).

(** [n] calls of [get_gtfs_feed] for one mode, one after the other, with the
    feeds they return. *)
Fixpoint calls (env : Env) (api_key mode : string) (n : nat)
  : M (list FeedMessage) :=
  match n with
  | O => ret []
  | S k =>
      let* a := get_gtfs_feed env api_key mode in
      let* rest := calls env api_key mode k in
      ret (a :: rest)
  end.

(** The world after calls of [get_gtfs_feed] for [modes] in turn, whether
    they return or raise. *)
Fixpoint after_calls (env : Env) (api_key : string) (modes : list string)
  (w : World) : World :=
  match modes with
  | [] => w
  | mode :: rest =>
      after_calls env api_key rest (snd (get_gtfs_feed env api_key mode w))
  end.

(** The server answers the [n]-th request, when it is the feed request for
    [mode], with the error status [st]. *)
Definition refuses (env : Env) (api_key mode : string) (n : nat) (st : Z)
  : Prop :=
  status_code (http_get env n (feed_request api_key mode)) = st
  /\ 400 <= st < 600.

(** A leg the scan passes over: its transportation is there and is of a
    walking class. *)
Definition passed_over (leg : JourneyLeg) : Prop :=
  has_transportation leg /\ ~ nonwalking leg.

(** The mode keys of the realtime endpoints. *)
Definition realtime_modes : list string :=
  ["buses"; "ferries"; "lightrail"; "sydneytrains"].

(** *** The order of use of the cache keys *)

(** [touch k order]: the keys from the most recently used to the least
    recently used, once [k] has been used. *)
Definition touch (k : cache_key) (order : list cache_key) : list cache_key :=
  k :: filter (fun x => x <> k) order.

(** The order of use after the uses [used] in turn, [start] being the order
    before them. *)
Definition recency (start used : list cache_key) : list cache_key :=
  fold_left (fun order k => touch k order) used start.

(** The key under which a call of [get_gtfs_feed] for [mode] on the world
    [w] looks up and stores: the mode and the bucket of the clock reading. *)
Definition call_key (env : Env) (mode : string) (w : World) : cache_key :=
  (mode, ttl_hash (time_time env (clock_reads w))).

(** The keys used by calls of [get_gtfs_feed] for [modes] in turn: a call
    that returns, from the table or from a fetch, uses its key; a call that
    raises uses none. *)
Fixpoint uses (env : Env) (api_key : string) (modes : list string)
  (w : World) : list cache_key :=
  match modes with
  | [] => []
  | mode :: rest =>
      match get_gtfs_feed env api_key mode w with
      | (Ok _, w') => call_key env mode w :: uses env api_key rest w'
      | (Raise _, w') => uses env api_key rest w'
      end
  end.

(** The order of use of the keys after calls for [modes] in turn on the world
    [w], whose table is most recently used first. *)
Definition use_order (env : Env) (api_key : string) (modes : list string)
  (w : World) : list cache_key :=
  recency (map fst (lru w)) (uses env api_key modes w).

(** A clock that stands still at 0 s, and the mode names "0" to "127". *)
Definition still_clock : Env := an_env [] feed_server.

Definition many_modes : list string := pretty <$> seq 0 128.

(** ** Exceptions and values of the callers

    The sensors and the calibrated light raise [TypeError] and [IndexError]
    besides the exceptions of the client, and hand Python values of several
    types to the host. *)

Inductive pyexn : Type :=
| Exn (e : exn)
| TypeError (msg : string)
| IndexError (msg : string).

Inductive outcome (A : Type) : Type :=
| Return (a : A)
| Throw (e : pyexn).

Arguments Return {A} a.
Arguments Throw {A} e.

Definition of_result {A} (r : result A) : outcome A :=
  match r with
  | Ok a => Return a
  | Raise e => Throw (Exn e)
  end.

Definition obind {A B} (c : outcome A) (k : A -> outcome B) : outcome B :=
  match c with
  | Return a => k a
  | Throw e => Throw e
  end.

Notation "'let!' x ':=' c 'in' k" := (obind c (fun x => k))
  (at level 10, x name, c at level 200, k at level 200) : py_scope.

Inductive pyvalue : Type :=
| VNone
| VStr (s : string)
| VInt (n : Z)
| VFloat (q : Q)
| VDatetime (d : datetime)
| VClass (k : RouteProductClass)
| VTuple (t : list Z).

(** A value that may be [None]. *)
Definition optional {A} (f : A -> pyvalue) (o : option A) : pyvalue :=
  match o with
  | Some a => f a
  | None => VNone
  end.

(** ** sensor.py *)

Module Sensor.

(** [ICONS], the keys being members of the enumeration and [None]. *)
Definition ICONS : list (option RouteProductClass * string) :=
  [ (Some TRAIN, "mdi:train");
    (Some LIGHT_RAIL, "mdi:tram");
    (Some BUS, "mdi:bus");
    (Some COACH, "mdi:bus");
    (Some FERRY, "mdi:ferry");
    (Some SCHOOL_BUS, "mdi:bus");
    (None, "mdi:clock") ].

(** [d.get(key, default)]. *)
Fixpoint dict_get (d : list (option RouteProductClass * string))
  (key : option RouteProductClass) (default : string) : string :=
  match d with
  | [] => default
  | (k, v) :: rest =>
      if bool_decide (k = key) then v else dict_get rest key default
  end.

(** The [name] of a member of the enumeration. *)
Definition name (k : RouteProductClass) : string :=
  match k with
  | TRAIN => "TRAIN"
  | LIGHT_RAIL => "LIGHT_RAIL"
  | BUS => "BUS"
  | COACH => "COACH"
  | FERRY => "FERRY"
  | SCHOOL_BUS => "SCHOOL_BUS"
  | WALKING => "WALKING"
  | WALKING_FOOTPATH => "WALKING_FOOTPATH"
  | BICYCLE => "BICYCLE"
  | TAKE_BICYCLE_ON_PUBLIC_TRANSPORT => "TAKE_BICYCLE_ON_PUBLIC_TRANSPORT"
  | KISS_AND_RIDE => "KISS_AND_RIDE"
  | PARK_AND_RIDE => "PARK_AND_RIDE"
  | TAXI => "TAXI"
  | CAR => "CAR"
  end.

(** [coordinator.data]: [None] until a first update succeeds. *)
Definition coordinator_data : Type :=
  option (list (Journey * option FeedEntity)).

(** [_get_journey] of both sensor classes; [trip_index] comes from
    [range(..)] and is not negative. *)
Definition _get_journey (data : coordinator_data) (trip_index : nat)
  : outcome (option (Journey * option FeedEntity)) :=
  match data with
  | None => Return None
  | Some d =>
      if bool_decide (length d <= trip_index)%nat then Return None
      else
        match d !! trip_index with
        | Some item => Return (Some item)
        | None => Throw (IndexError "list index out of range")
        end
  end.

(** [journey, _ = self._get_journey()]: unpacking [None] raises. *)
Definition unpack (got : option (Journey * option FeedEntity))
  : outcome (Journey * option FeedEntity) :=
  match got with
  | Some item => Return item
  | None => Throw (TypeError "cannot unpack non-iterable NoneType object")
  end.

(** Attribute access on a leg that may be [None]. *)
Definition leg_attr {A} (leg : option JourneyLeg) (f : JourneyLeg -> A)
  : outcome A :=
  match leg with
  | Some l => Return (f l)
  | None => Throw (Exn (AttributeError "NoneType object has no attribute"))
  end.

Definition ticket_attr {A} (ticket : option JourneyFareTicket)
  (f : JourneyFareTicket -> A) : outcome A :=
  match ticket with
  | Some t => Return (f t)
  | None => Throw (Exn (AttributeError "NoneType object has no attribute"))
  end.

Definition transportation_attr {A} (leg : JourneyLeg)
  (f : TripTransportation -> A) : outcome A :=
  match transportation leg with
  | Some tr => Return (f tr)
  | None => Throw (Exn (AttributeError "NoneType object has no attribute"))
  end.

Section WithStr.

(** [str] on a [decimal.Decimal]. *)
Variable str_decimal : Decimal -> string.

(** [TransportNSWJourneyFareSensor.native_value].  After the unpacking
    [journey] is a [Journey], so the test [journey is None] never holds. *)
Definition fare_native_value (data : coordinator_data) (trip_index : nat)
  (fare_type : string) : outcome string :=
  let! got := _get_journey data trip_index in
  let! item := unpack got in
  let journey := fst item in
  let ticket := get_ticket (tickets (fare journey)) fare_type in
  ticket_attr ticket (fun t => str_decimal (priceBrutto t)).

(** [TransportNSWJourneySensor.extra_state_attributes]. *)
Definition extra_state_attributes (data : coordinator_data)
  (trip_index : nat) (fare_type : string) : outcome (gmap string pyvalue) :=
  let! got := _get_journey data trip_index in
  let! item := unpack got in
  let journey := fst item in
  let realtime := snd item in
  let! origin_leg := of_result (get_first_nonwalking_leg (legs journey)) in
  let! dest_leg :=
    of_result (get_first_nonwalking_leg (reverse (legs journey))) in
  let! origin := leg_attr origin_leg Model.origin in
  let! destination := leg_attr dest_leg Model.destination in
  let! trip_changes := of_result (count_trip_changes (legs journey)) in
  let ticket := get_ticket (tickets (fare journey)) fare_type in
  let! oleg := leg_attr origin_leg id in
  let! k := transportation_attr oleg (fun tr => klass (product tr)) in
  let! line := transportation_attr oleg number in
  let! short := transportation_attr oleg disassembledName in
  let! rid := transportation_attr oleg realtime_trip_id in
  let! who := ticket_attr ticket person in
  let! price := ticket_attr ticket (fun t => str_decimal (priceBrutto t)) in
  Return
    (list_to_map
       [ ("origin_stop_id", VStr (stop_id origin));
         ("origin_name", VStr (stop_name origin));
         ("destination_stop_id", VStr (stop_id destination));
         ("destination_name", VStr (stop_name destination));
         ("departure_time_estimated",
          optional VDatetime (departureTimeEstimated origin));
         ("departure_time_planned",
          optional VDatetime (departureTimePlanned origin));
         ("arrival_time_estimated",
          optional VDatetime (arrivalTimeEstimated destination));
         ("arrival_time_planned",
          optional VDatetime (arrivalTimePlanned destination));
         ("origin_transport_type", VClass k);
         ("origin_transport_name", VStr (name k));
         ("origin_line_name", optional VStr line);
         ("origin_line_name_short", optional VStr short);
         ("changes", VInt trip_changes);
         ("occupancy", optional VStr (occupancy (Model.destination oleg)));
         ("real_time_trip_id", optional VStr rid);
         ("fare_type", VStr who);
         ("fare_price", VStr price);
         ("latitude", optional (fun e => VFloat (latitude e)) realtime);
         ("longitude", optional (fun e => VFloat (longitude e)) realtime) ]).

End WithStr.

(** [TransportNSWJourneySensor.icon]. *)
Definition icon (data : coordinator_data) (trip_index : nat)
  : outcome string :=
  let! got := _get_journey data trip_index in
  let! item := unpack got in
  let journey := fst item in
  let! origin_leg := of_result (get_first_nonwalking_leg (legs journey)) in
  let! oleg := leg_attr origin_leg id in
  let! k := transportation_attr oleg (fun tr => klass (product tr)) in
  Return (dict_get ICONS (Some k) "mdi:clock").

End Sensor.

(** ** calibrated_light/light.py *)

Module CalibratedLight.

Definition clamp_rgb (value : Z) : Z := Z.min (Z.max value 0) 255.

(** [t[i]] on a tuple or list of integers. *)
Definition subscript (t : list Z) (i : nat) : outcome Z :=
  match t !! i with
  | Some x => Return x
  | None => Throw (IndexError "index out of range")
  end.

(** [color_rgb[i]], the colour being a tuple of integers or [None]. *)
Definition subscript_color (color_rgb : option (list Z)) (i : nat)
  : outcome Z :=
  match color_rgb with
  | Some t => subscript t i
  | None => Throw (TypeError "NoneType object is not subscriptable")
  end.

(** [clamp_rgb(color_rgb[i] + (calibration[i] * modifier))]: the colour is
    subscripted first. *)
Definition channel (calibration : list Z) (color_rgb : option (list Z))
  (modifier : Z) (i : nat) : outcome Z :=
  let! x := subscript_color color_rgb i in
  let! c := subscript calibration i in
  Return (clamp_rgb (x + c * modifier)).

Definition apply_calibration (calibration : list Z)
  (color_rgb : option (list Z)) (invert : bool) : outcome (list Z) :=
  let modifier := if invert then -1 else 1 in
  let! r := channel calibration color_rgb modifier 0 in
  let! g := channel calibration color_rgb modifier 1 in
  let! b := channel calibration color_rgb modifier 2 in
  Return [r; g; b].

(** The state of the wrapped light, with the attributes the entity reads. *)
Record State : Type := mkState {
  state : string;
  attr_supported_features : option Z;
  attr_brightness : option Z;
  attr_rgb_color : option (list Z);
  attr_effect_list : option (list string);
  attr_effect : option string
}.

Record Light : Type := mkLight {
  _light_entity_id : string;
  _light_state : option State;
  _name : string;
  _calibration_rgb : list Z;
  _unique_id : option string
}.

(** The property [rgb_color]. *)
Definition rgb_color (self : Light) : outcome (list Z) :=
  match _light_state self with
  | None =>
      Throw (Exn (AttributeError "NoneType object has no attribute attributes"))
  | Some st => apply_calibration (_calibration_rgb self) (attr_rgb_color st) true
  end.

(** The property [available]. *)
Definition available (self : Light) : bool :=
  match _light_state self with
  | None => false
  | Some st => negb (bool_decide (state st = "unavailable"))
  end.

(** The data [async_turn_on] hands to the service [light.turn_on]:
    [{ATTR_ENTITY_ID: .., **kwargs}] with the colour, when there is one,
    calibrated.  A colour that is no tuple cannot be added to. *)
Definition turn_on_data (self : Light) (kwargs : gmap string pyvalue)
  : outcome (gmap string pyvalue) :=
  let data := kwargs ∪ {["entity_id" := VStr (_light_entity_id self)]} in
  match data !! "rgb_color" with
  | None => Return data
  | Some (VTuple t) =>
      let! rgb := apply_calibration (_calibration_rgb self) (Some t) false in
      Return (<["rgb_color" := VTuple rgb]> data)
  | Some (VStr s) =>
      if bool_decide (s = "") then
        Throw (IndexError "string index out of range")
      else
        let! c := subscript (_calibration_rgb self) 0 in
        Throw (TypeError "can only concatenate str to str")
  | Some _ => Throw (TypeError "object is not subscriptable")
  end.

End CalibratedLight.

(** ** Further sample data *)

Module MoreSamples.

Definition refusing_server (st : Z) (n : nat) (r : Request) : Response :=
  mkHttpResponse st Garbage.

Definition a_light (calibration : list Z) (colour : option (list Z))
  : CalibratedLight.Light :=
  CalibratedLight.mkLight "light.desk"
    (Some (CalibratedLight.mkState "on" None None colour None None))
    "Desk" calibration (Some "abc").

Definition render_cents (d : Decimal) : string :=
  pretty (coefficient d) +:+ "e" +:+ pretty (exponent d).

Definition coach_leg : JourneyLeg :=
  a_leg "stop A" "stop B" (Some (a_transportation COACH None)).

(** Coordinator data of two journeys: walk then coach, and a walk alone. *)
Definition sensor_data : list (Journey * option FeedEntity) :=
  [(a_journey [walk_leg; coach_leg], None); (a_journey [walk_leg], None)].

End MoreSamples.

Import MoreSamples.

(** ** Journey utilities: results *)

Section UtilsFacts.

Lemma leg_klass_Some (leg : JourneyLeg) (tr : TripTransportation) :
  transportation leg = Some tr -> leg_klass leg = Ok (klass (product tr)).
Proof. unfold leg_klass. intros ->. reflexivity. Qed.

Lemma leg_klass_None (leg : JourneyLeg) :
  transportation leg = None -> exists msg, leg_klass leg = Raise (AttributeError msg).
Proof. unfold leg_klass. intros ->. eauto. Qed.

(** The membership test of [get_first_nonwalking_leg] decides the walking
    classes. *)
Lemma walking_test (k : RouteProductClass) :
  py_in (PyEnum k) [PyEnum WALKING; PyEnum WALKING_FOOTPATH] = true
  <-> k = WALKING \/ k = WALKING_FOOTPATH.
Proof. destruct k; cbn; split; intros H; try discriminate; auto;
  destruct H as [H|H]; discriminate. Qed.

(** The membership test of [count_trip_changes] never succeeds: a member of
    the enumeration is not equal to an integer. *)
Lemma integer_test (k : RouteProductClass) :
  py_in (PyEnum k) [PyInt 99; PyInt 100] = false.
Proof. reflexivity. Qed.

Lemma nonwalkingb_spec (leg : JourneyLeg) :
  nonwalkingb leg = true <-> nonwalking leg.
Proof.
  unfold nonwalkingb, nonwalking. destruct (transportation leg) as [tr|].
  - rewrite andb_true_iff, !negb_true_iff, !bool_decide_eq_false. split.
    + intros [H1 H2]. exists tr. auto.
    + intros (tr' & [= <-] & H1 & H2). auto.
  - split; [discriminate|]. intros (tr & [=] & _).
Qed.

Lemma first_nonwalking_skip (leg : JourneyLeg) (rest : list JourneyLeg) :
  has_transportation leg -> ~ nonwalking leg ->
  get_first_nonwalking_leg (leg :: rest) = get_first_nonwalking_leg rest.
Proof.
  intros [tr Htr] Hw. cbn [get_first_nonwalking_leg].
  rewrite (leg_klass_Some _ _ Htr).
  destruct (py_in _ _) eqn:E; [reflexivity|]. exfalso. apply Hw.
  exists tr. split; [exact Htr|].
  split; intros Hk; assert (py_in (PyEnum (klass (product tr)))
    [PyEnum WALKING; PyEnum WALKING_FOOTPATH] = true) as Ht
    by (apply walking_test; auto); congruence.
Qed.

Lemma first_nonwalking_stop (leg : JourneyLeg) (rest : list JourneyLeg) :
  nonwalking leg -> get_first_nonwalking_leg (leg :: rest) = Ok (Some leg).
Proof.
  intros (tr & Htr & H1 & H2). cbn [get_first_nonwalking_leg].
  rewrite (leg_klass_Some _ _ Htr).
  destruct (py_in _ _) eqn:E; [|reflexivity].
  apply walking_test in E. tauto.
Qed.

(** The scan returns the leg that follows a prefix of walking legs. *)
Lemma first_nonwalking_after_prefix (l1 l2 : list JourneyLeg) (leg : JourneyLeg) :
  Forall has_transportation l1 -> Forall (fun l => ~ nonwalking l) l1 ->
  nonwalking leg ->
  get_first_nonwalking_leg (l1 ++ leg :: l2) = Ok (Some leg).
Proof.
  intros Ht Hw Hleg. induction l1 as [|x l1 IH]; cbn [app].
  - apply first_nonwalking_stop, Hleg.
  - inversion Ht; inversion Hw; subst.
    rewrite first_nonwalking_skip by assumption. auto.
Qed.

Lemma first_nonwalking_all_walking (l : list JourneyLeg) :
  Forall has_transportation l -> Forall (fun x => ~ nonwalking x) l ->
  get_first_nonwalking_leg l = Ok None.
Proof.
  intros Ht Hw. induction l as [|x l IH]; [reflexivity|].
  inversion Ht; inversion Hw; subst.
  rewrite first_nonwalking_skip by assumption. auto.
Qed.

(** A list with a non-walking leg splits at its first such leg. *)
Lemma split_at_first_nonwalking (l : list JourneyLeg) :
  (exists x, x ∈ l /\ nonwalking x) ->
  exists l1 leg l2, l = l1 ++ leg :: l2 /\ nonwalking leg
                    /\ Forall (fun x => ~ nonwalking x) l1.
Proof.
  induction l as [|x l IH]; intros (y & Hy & Hn).
  - inversion Hy.
  - destruct (nonwalkingb x) eqn:E.
    + exists [], x, l. apply nonwalkingb_spec in E. auto.
    + assert (~ nonwalking x) as Hx
        by (rewrite <- nonwalkingb_spec; congruence).
      apply elem_of_cons in Hy as [->|Hy]; [contradiction|].
      destruct IH as (l1 & leg & l2 & -> & Hleg & Hall); [eauto|].
      exists (x :: l1), leg, l2. auto.
Qed.

(** ... and at its last such leg. *)
Lemma split_at_last_nonwalking (l : list JourneyLeg) :
  (exists x, x ∈ l /\ nonwalking x) ->
  exists l1 leg l2, l = l1 ++ leg :: l2 /\ nonwalking leg
                    /\ Forall (fun x => ~ nonwalking x) l2.
Proof.
  intros (y & Hy & Hn).
  destruct (split_at_first_nonwalking (reverse l)) as (r1 & leg & r2 & E & Hleg & Hall).
  { exists y. split; [apply elem_of_reverse, Hy|exact Hn]. }
  exists (reverse r2), leg, (reverse r1). split; [|split]; [|exact Hleg|].
  - rewrite <- (reverse_involutive l), E, reverse_app, reverse_cons.
    rewrite <- app_assoc. reflexivity.
  - apply Forall_reverse, Hall.
Qed.

(** With every transportation present, [count_trip_changes] adds one for every
    leg, walking or not. *)
Lemma count_trip_changes_loop_every_leg (l : list JourneyLeg) (changes : Z) :
  Forall has_transportation l ->
  count_trip_changes_loop l changes = Ok (changes + Z.of_nat (length l)).
Proof.
  intros Ht. revert changes.
  induction l as [|x l IH]; intros changes;
    cbn [count_trip_changes_loop length].
  - f_equal. lia.
  - inversion Ht as [|? ? [tr Htr] Ht']; subst.
    rewrite (leg_klass_Some _ _ Htr), integer_test. cbn [negb].
    rewrite IH by assumption. f_equal. lia.
Qed.

Lemma count_trip_changes_every_leg (l : list JourneyLeg) :
  Forall has_transportation l ->
  count_trip_changes l = Ok (Z.of_nat (length l) - 1).
Proof.
  intros Ht. unfold count_trip_changes.
  rewrite count_trip_changes_loop_every_leg by assumption. f_equal. lia.
Qed.

End UtilsFacts.

(** C6.  [get_gtfs_mode] is defined on every member of [RouteProductClass]
    and has five outcomes: BUS gives "buses", FERRY "ferries", LIGHT_RAIL
    "lightrail", TRAIN "sydneytrains", and every other class (COACH,
    SCHOOL_BUS, TAXI, CAR, the walking classes, ...) gives [None]. *)
Theorem get_gtfs_mode_five_outcomes :
  get_gtfs_mode BUS = Some "buses"
  /\ get_gtfs_mode FERRY = Some "ferries"
  /\ get_gtfs_mode LIGHT_RAIL = Some "lightrail"
  /\ get_gtfs_mode TRAIN = Some "sydneytrains"
  /\ (forall k, k ∉ [BUS; FERRY; LIGHT_RAIL; TRAIN] -> get_gtfs_mode k = None)
  /\ (forall k, get_gtfs_mode k ∈
        [Some "buses"; Some "ferries"; Some "lightrail"; Some "sydneytrains";
         None]).
Proof.
  repeat split; try reflexivity.
  - intros k Hk. rewrite !not_elem_of_cons in Hk.
    destruct k; try reflexivity; exfalso; tauto.
  - intros k. rewrite !elem_of_cons. destruct k; cbn; tauto.
Qed.

(** C10.  [get_ticket] returns [None] exactly when no ticket is for the
    requested person, and otherwise the first ticket, in sequence order, whose
    [person] equals the request. *)
Theorem get_ticket_first_match (tickets : list JourneyFareTicket) (p : string) :
  match get_ticket tickets p with
  | None => Forall (fun t => person t <> p) tickets
  | Some t =>
      exists l1 l2, tickets = l1 ++ t :: l2
                    /\ Forall (fun x => person x <> p) l1
                    /\ person t = p
  end.
Proof.
  induction tickets as [|x l IH]; cbn [get_ticket].
  - constructor.
  - case_bool_decide as Hx.
    + exists [], l. auto.
    + destruct (get_ticket l p) as [t|].
      * destruct IH as (l1 & l2 & -> & Hall & Ht).
        exists (x :: l1), l2. auto.
      * constructor; assumption.
Qed.

(** C4.  When every leg has its transportation and some leg is non-walking,
    [get_first_nonwalking_leg] returns the non-walking leg of least index on
    the sequence and the one of greatest index on the reversed sequence; when
    every leg is walking it returns [None] on both. *)
Theorem get_first_nonwalking_leg_both_directions (legs : list JourneyLeg) :
  Forall has_transportation legs ->
  ((exists x, x ∈ legs /\ nonwalking x) ->
     (exists i leg,
        get_first_nonwalking_leg legs = Ok (Some leg)
        /\ legs !! i = Some leg /\ nonwalking leg
        /\ forall j x, (j < i)%nat -> legs !! j = Some x -> ~ nonwalking x)
     /\ (exists i leg,
        get_first_nonwalking_leg (reverse legs) = Ok (Some leg)
        /\ legs !! i = Some leg /\ nonwalking leg
        /\ forall j x, (i < j)%nat -> legs !! j = Some x -> ~ nonwalking x))
  /\ ((forall x, x ∈ legs -> ~ nonwalking x) ->
       get_first_nonwalking_leg legs = Ok None
       /\ get_first_nonwalking_leg (reverse legs) = Ok None).
Proof.
  intros Ht. split.
  - intros Hex. split.
    + destruct (split_at_first_nonwalking legs Hex)
        as (l1 & leg & l2 & -> & Hleg & Hall).
      apply Forall_app in Ht as [Ht1 _].
      exists (length l1), leg. split; [|split; [|split]].
      * apply first_nonwalking_after_prefix; assumption.
      * apply list_lookup_middle. reflexivity.
      * exact Hleg.
      * intros j x Hj Hx. rewrite lookup_app_l in Hx by exact Hj.
        rewrite Forall_lookup in Hall. exact (Hall j x Hx).
    + destruct (split_at_last_nonwalking legs Hex)
        as (l1 & leg & l2 & -> & Hleg & Hall).
      apply Forall_app in Ht as [_ Ht2]. apply Forall_cons in Ht2 as [_ Ht2].
      exists (length l1), leg. split; [|split; [|split]].
      * rewrite reverse_app, reverse_cons, <- app_assoc.
        apply first_nonwalking_after_prefix;
          [apply Forall_reverse; assumption
          |apply Forall_reverse; assumption|assumption].
      * apply list_lookup_middle. reflexivity.
      * exact Hleg.
      * intros j x Hj Hx.
        rewrite lookup_app_r in Hx by lia.
        destruct (j - length l1)%nat as [|n] eqn:E; [lia|]. cbn in Hx.
        rewrite Forall_lookup in Hall. exact (Hall n x Hx).
  - intros Hall.
    assert (Forall (fun x => ~ nonwalking x) legs) as Hw
      by (apply Forall_forall; exact Hall).
    split.
    + apply first_nonwalking_all_walking; assumption.
    + apply first_nonwalking_all_walking; apply Forall_reverse; assumption.
Qed.

(** The theorem at the itinerary walk, bus, train, footpath. *)
Lemma get_first_nonwalking_leg_both_directions_witness :
  Forall has_transportation [walk_leg; bus_leg; train_leg; footpath_leg]
  /\ (exists i leg,
        get_first_nonwalking_leg [walk_leg; bus_leg; train_leg; footpath_leg]
          = Ok (Some leg)
        /\ [walk_leg; bus_leg; train_leg; footpath_leg] !! i = Some leg
        /\ nonwalking leg
        /\ forall j x, (j < i)%nat ->
             [walk_leg; bus_leg; train_leg; footpath_leg] !! j = Some x ->
             ~ nonwalking x)
  /\ (exists i leg,
        get_first_nonwalking_leg
          (reverse [walk_leg; bus_leg; train_leg; footpath_leg]) = Ok (Some leg)
        /\ [walk_leg; bus_leg; train_leg; footpath_leg] !! i = Some leg
        /\ nonwalking leg
        /\ forall j x, (i < j)%nat ->
             [walk_leg; bus_leg; train_leg; footpath_leg] !! j = Some x ->
             ~ nonwalking x).
Proof.
  assert (Forall has_transportation
            [walk_leg; bus_leg; train_leg; footpath_leg]) as Ht
    by (repeat constructor; eexists; reflexivity).
  split; [exact Ht|].
  apply (get_first_nonwalking_leg_both_directions
           [walk_leg; bus_leg; train_leg; footpath_leg] Ht).
  exists bus_leg. split.
  - rewrite !elem_of_cons. right; left; reflexivity.
  - apply nonwalkingb_spec. reflexivity.
Defined.

(** C2.  The specification counts the non-walking legs less one: 0 on walk,
    bus and -1 on a single walking leg.  [count_trip_changes] returns 1 and 0,
    the number of legs less one, since no member of the enumeration is equal
    to 99 or 100. *)
Theorem count_trip_changes_counts_walking_legs :
  length (filter (fun l => nonwalkingb l = true) [walk_leg; bus_leg]) = 1%nat
  /\ count_trip_changes [walk_leg; bus_leg] = Ok 1
  /\ length (filter (fun l => nonwalkingb l = true) [walk_leg]) = 0%nat
  /\ count_trip_changes [walk_leg] = Ok 0.
Proof. repeat split; reflexivity. Qed.

(** C3.  A leg without transportation makes both functions raise
    [AttributeError] as soon as the scan reaches it; it is not skipped as a
    walking leg. *)
Theorem absent_transportation_raises :
  (exists msg, get_first_nonwalking_leg [bare_leg; bus_leg]
               = Raise (AttributeError msg))
  /\ (exists msg, get_first_nonwalking_leg [walk_leg; bare_leg]
                  = Raise (AttributeError msg))
  /\ (exists msg, count_trip_changes [bus_leg; bare_leg]
                  = Raise (AttributeError msg)).
Proof. repeat split; eexists; reflexivity. Qed.

(** ** Trip client: results *)

Section ClientFacts.

Lemma excl_mot_map_lookup (mode code : string) :
  excl_mot_map !! mode = Some code
  <-> (mode, code) ∈
        [ ("train", "exclMOT_1"); ("light_rail", "exclMOT_4");
          ("bus", "exclMOT_5"); ("coach", "exclMOT_7");
          ("ferry", "exclMOT_9"); ("school_bus", "exclMOT_11") ].
Proof.
  unfold excl_mot_map. symmetry. apply elem_of_list_to_map.
  apply (bool_decide_unpack _). vm_compute. reflexivity.
Qed.

(** Two modes never share a parameter code. *)
Lemma excl_mot_map_inj (m1 m2 code : string) :
  excl_mot_map !! m1 = Some code -> excl_mot_map !! m2 = Some code -> m1 = m2.
Proof.
  rewrite !excl_mot_map_lookup, !elem_of_cons, !elem_of_nil.
  intros H1 H2. destruct_or!; simplify_eq; reflexivity.
Qed.

Lemma excl_code_not_base (mode code : string) (base : gmap string param) :
  excl_mot_map !! mode = Some code ->
  (forall c, c ∈ all_codes -> base !! c = None) ->
  base !! code = None.
Proof.
  rewrite excl_mot_map_lookup, !elem_of_cons, elem_of_nil.
  intros H Hb. apply Hb. unfold all_codes. rewrite !elem_of_cons.
  destruct_or!; simplify_eq; tauto.
Qed.

(** The loop of [get_exclude_mot_params] on modes the table knows: it does not
    raise, sets the code of every entry and leaves every other key alone. *)
Lemma set_exclusions_known (entries : list string)
  (params : gmap string param) :
  Forall (fun e => is_Some (excl_mot_map !! e)) entries ->
  exists params',
    set_exclusions entries params = Ok params'
    /\ (forall e c, e ∈ entries -> excl_mot_map !! e = Some c ->
          params' !! c = Some (PStr "1"))
    /\ (forall c, (forall e, e ∈ entries -> excl_mot_map !! e <> Some c) ->
          params' !! c = params !! c).
Proof.
  intros Hk. revert params.
  induction entries as [|e entries IH]; intros params; cbn [set_exclusions].
  - exists params. split; [reflexivity|]. split; [|reflexivity].
    intros e c He. inversion He.
  - inversion Hk as [|? ? [code Hcode] Hk']; subst. rewrite Hcode.
    destruct (IH Hk' (<[code := PStr "1"]> params)) as (p' & -> & Hset & Hkeep).
    exists p'. split; [reflexivity|]. split.
    + intros e' c He' Hc. apply elem_of_cons in He' as [->|He'].
      * assert (c = code) as -> by congruence.
        destruct (decide (e ∈ entries)) as [Hin|Hno].
        -- exact (Hset e code Hin Hcode).
        -- rewrite Hkeep; [apply lookup_insert_eq|].
           intros x Hx Hxc. apply Hno.
           rewrite (excl_mot_map_inj e x code Hcode Hxc). exact Hx.
      * exact (Hset e' c He' Hc).
    + intros c Hno. rewrite Hkeep.
      * apply lookup_insert_ne. intros ->. apply (Hno e); [left|exact Hcode].
      * intros x Hx. apply Hno. right. exact Hx.
Qed.

End ClientFacts.

Section TripRequestFacts.

Lemma base_params_no_exclusion (origin destination : string) (n : Z)
  (arrive_by : option datetime) (itd : datetime) (c : string) :
  c ∈ all_codes ->
  trip_params origin destination n arrive_by itd ∅ !! c = None.
Proof.
  unfold all_codes. rewrite !elem_of_cons, elem_of_nil.
  intros H. destruct_or!; try contradiction; subst c;
    destruct arrive_by; vm_compute; reflexivity.
Qed.

Lemma trip_params_lookup (origin destination : string) (n : Z)
  (arrive_by : option datetime) (itd : datetime) (p : gmap string param)
  (mode code : string) :
  excl_mot_map !! mode = Some code ->
  trip_params origin destination n arrive_by itd p !! code = p !! code.
Proof.
  intros Hcode. unfold trip_params. apply lookup_union_l.
  apply (excl_code_not_base mode code _ Hcode).
  intros c Hc.
  pose proof (base_params_no_exclusion origin destination n arrive_by itd c Hc)
    as Hb.
  unfold trip_params in Hb. rewrite lookup_union_r in Hb by apply lookup_empty.
  exact Hb.
Qed.

(** A non-empty inclusion list is turned into its complement among the six
    modes. *)
Lemma get_exclude_mot_params_include (m : string) (ms : list string)
  (exclude_mot : option (list string)) :
  exists p,
    get_exclude_mot_params (Some (m :: ms)) exclude_mot = Ok p
    /\ forall mode code, excl_mot_map !! mode = Some code ->
         p !! code = if bool_decide (mode ∈ m :: ms) then None
                     else Some (PStr "1").
Proof.
  unfold get_exclude_mot_params.
  set (exclude := dom excl_mot_map ∖ list_to_set (m :: ms) : gset string).
  set (p0 := <["excludedMeans" := PStr "checkbox"]> (∅ : gmap string param)).
  destruct (set_exclusions_known (elements exclude) p0)
    as (p & Hp & Hset & Hkeep).
  { apply Forall_forall. intros e He. apply elem_of_elements in He.
    apply elem_of_difference in He as [He _].
    apply elem_of_dom in He. exact He. }
  exists p. split; [exact Hp|]. intros mode code Hcode.
  case_bool_decide as Hin.
  - rewrite Hkeep.
    + apply (excl_code_not_base mode code _ Hcode).
      intros c Hc. unfold all_codes in Hc.
      rewrite !elem_of_cons, elem_of_nil in Hc.
      destruct_or!; try contradiction; subst c; vm_compute; reflexivity.
    + intros e He Hec. apply elem_of_elements in He.
      apply elem_of_difference in He as [_ He]. apply He.
      apply elem_of_list_to_set.
      rewrite (excl_mot_map_inj e mode code Hec Hcode). exact Hin.
  - apply (Hset mode code); [|exact Hcode].
    apply elem_of_elements, elem_of_difference. split.
    + apply elem_of_dom. eauto.
    + rewrite elem_of_list_to_set. exact Hin.
Qed.

(** What [get_trip] sends once its two guards are passed and the exclusion
    parameters are built. *)
Lemma get_trip_sends (env : Env) (api_key origin destination : string)
  (n : Z) (depart_at arrive_by : option datetime)
  (include_mot exclude_mot : option (list string))
  (p : gmap string param) (w : World) :
  ~ (is_Some depart_at /\ is_Some arrive_by) ->
  ~ (is_Some include_mot /\ is_Some exclude_mot) ->
  get_exclude_mot_params include_mot exclude_mot = Ok p ->
  exists itd,
    sent (snd (get_trip env api_key origin destination n depart_at arrive_by
                 include_mot exclude_mot w))
    = sent w ++ [mkRequest trip_url
                   (trip_params origin destination n arrive_by itd p)
                   (auth_headers api_key)].
Proof.
  intros Hd Hm Hp. unfold get_trip.
  rewrite <- bool_decide_and, (bool_decide_eq_false_2 _ Hd).
  rewrite <- bool_decide_and, (bool_decide_eq_false_2 _ Hm).
  unfold bind, lift. rewrite Hp.
  destruct depart_at as [d|], arrive_by as [a|];
    [exfalso; apply Hd; split; eauto| | |].
  all: eexists; unfold ret, now, requests_get, raise_for_status;
    cbn [fst snd sent]; case_bool_decide; unfold raise, ret; cbn [snd sent];
    [reflexivity | destruct (body _); reflexivity].
Qed.

End TripRequestFacts.

(** C5.  With an inclusion list that is not empty, the request [get_trip]
    sends carries [exclMOT_<code> = "1"] for exactly the modes of the table
    that are not listed and no flag for a listed mode; with an empty inclusion
    list it carries no exclusion flag at all. *)
Theorem get_trip_include_mot_complement (env : Env)
  (api_key origin destination : string) (n : Z)
  (depart_at arrive_by : option datetime) (include_mot : list string)
  (w : World) :
  ~ (is_Some depart_at /\ is_Some arrive_by) ->
  exists req,
    sent (snd (get_trip env api_key origin destination n depart_at arrive_by
                 (Some include_mot) None w)) = sent w ++ [req]
    /\ forall mode code, excl_mot_map !! mode = Some code ->
         req_params req !! code =
           if bool_decide (include_mot = []) then None
           else if bool_decide (mode ∈ include_mot) then None
           else Some (PStr "1").
Proof.
  intros Hd.
  assert (~ (is_Some (Some include_mot) /\ is_Some (@None (list string))))
    as Hm by (intros [_ [x Hx]]; discriminate).
  destruct include_mot as [|m ms].
  - destruct (get_trip_sends env api_key origin destination n depart_at
                arrive_by (Some []) None ∅ w Hd Hm eq_refl) as [itd Hs].
    eexists. split; [exact Hs|]. intros mode code Hcode. cbn [req_params].
    rewrite (trip_params_lookup _ _ _ _ _ _ mode code Hcode).
    rewrite bool_decide_eq_true_2 by reflexivity. apply lookup_empty.
  - destruct (get_exclude_mot_params_include m ms None) as (p & Hp & Hflags).
    destruct (get_trip_sends env api_key origin destination n depart_at
                arrive_by (Some (m :: ms)) None p w Hd Hm Hp) as [itd Hs].
    eexists. split; [exact Hs|]. intros mode code Hcode. cbn [req_params].
    rewrite (trip_params_lookup _ _ _ _ _ _ mode code Hcode).
    rewrite bool_decide_eq_false_2 by discriminate.
    exact (Hflags mode code Hcode).
Qed.

(** The theorem for a departure search that includes buses and ferries. *)
Lemma get_trip_include_mot_complement_witness :
  ~ (is_Some (Some (mkDatetime 2024 3 7 8 30)) /\ is_Some (@None datetime))
  /\ exists req,
    sent (snd (get_trip (an_env [] feed_server) "key" "10101100" "10101200" 1
                 (Some (mkDatetime 2024 3 7 8 30)) None
                 (Some ["bus"; "ferry"]) None world0)) = sent world0 ++ [req]
    /\ forall mode code, excl_mot_map !! mode = Some code ->
         req_params req !! code =
           if bool_decide (["bus"; "ferry"] = []) then None
           else if bool_decide (mode ∈ ["bus"; "ferry"]) then None
           else Some (PStr "1").
Proof.
  assert (~ (is_Some (Some (mkDatetime 2024 3 7 8 30))
             /\ is_Some (@None datetime))) as Hd
    by (intros [_ [x Hx]]; discriminate).
  split; [exact Hd|].
  exact (get_trip_include_mot_complement (an_env [] feed_server) "key"
           "10101100" "10101200" 1 (Some (mkDatetime 2024 3 7 8 30)) None
           ["bus"; "ferry"] world0 Hd).
Defined.

(** C5 without the restriction fails on the empty inclusion list: no mode is
    listed, yet
    the one request sent carries none of the six exclusion flags. *)
Lemma empty_include_mot_sends_no_exclusion :
  map (fun r => map (fun c => req_params r !! c) all_codes)
    (sent (snd (get_trip (an_env [] feed_server) "key" "10101100" "10101200" 1
                  None None (Some []) None world0)))
  = [[None; None; None; None; None; None]].
Proof. vm_compute. reflexivity. Qed.

(** C8.  When both [depart_at] and [arrive_by] are given, or both
    [include_mot] and [exclude_mot], [get_trip] raises its [AssertionError]
    (the configuration error of the client) and leaves the world as it was:
    no request is sent and no parameter leaves the process. *)
Theorem get_trip_rejects_exclusive_arguments (env : Env)
  (api_key origin destination : string) (n : Z)
  (depart_at arrive_by : option datetime)
  (include_mot exclude_mot : option (list string)) (w : World) :
  (is_Some depart_at /\ is_Some arrive_by)
  \/ (is_Some include_mot /\ is_Some exclude_mot) ->
  exists msg,
    get_trip env api_key origin destination n depart_at arrive_by
      include_mot exclude_mot w = (Raise (AssertionError msg), w).
Proof.
  intros H. unfold get_trip. rewrite <- !bool_decide_and.
  destruct (decide (is_Some depart_at /\ is_Some arrive_by)) as [Hd|Hd].
  - rewrite (bool_decide_eq_true_2 _ Hd). eexists. reflexivity.
  - rewrite (bool_decide_eq_false_2 _ Hd).
    destruct H as [H|H]; [contradiction|].
    rewrite (bool_decide_eq_true_2 _ H). eexists. reflexivity.
Qed.

(** The theorem for a call with both times, and for one with both lists. *)
Lemma get_trip_rejects_exclusive_arguments_witness :
  (exists msg,
     get_trip (an_env [] feed_server) "key" "10101100" "10101200" 1
       (Some (mkDatetime 2024 3 7 8 30)) (Some (mkDatetime 2024 3 7 9 0))
       None None world0 = (Raise (AssertionError msg), world0))
  /\ (exists msg,
     get_trip (an_env [] feed_server) "key" "10101100" "10101200" 1
       None None (Some ["bus"]) (Some ["train"]) world0
     = (Raise (AssertionError msg), world0)).
Proof.
  split.
  - apply get_trip_rejects_exclusive_arguments. left. split; eexists; reflexivity.
  - apply get_trip_rejects_exclusive_arguments. right. split; eexists; reflexivity.
Defined.

(** ** Realtime feed cache: results *)

Section CacheFacts.

Variable env : Env.
Variable api_key : string.

(** A fetch always sends its request; it returns the feed when the server
    serves one. *)
Lemma get_realtime_feed_sends (mode : string) (w : World) :
  snd (get_realtime_feed env api_key mode w)
  = mkWorld (sent w ++ [feed_request api_key mode]) (clock_reads w) (lru w).
Proof.
  unfold get_realtime_feed, bind, requests_get, raise_for_status.
  case_bool_decide; unfold raise, ret; cbn [snd]; [reflexivity|].
  destruct (body _); reflexivity.
Qed.

Lemma get_realtime_feed_served (mode : string) (w : World)
  (feed : FeedMessage) :
  serves env api_key mode (length (sent w)) feed ->
  get_realtime_feed env api_key mode w
  = (Ok feed,
     mkWorld (sent w ++ [feed_request api_key mode]) (clock_reads w) (lru w)).
Proof.
  intros (st & Hst & Hok).
  unfold get_realtime_feed, bind, requests_get, raise_for_status.
  unfold feed_request in Hst. rewrite Hst. cbn [status_code body].
  rewrite (bool_decide_eq_false_2 _ Hok). reflexivity.
Qed.

Lemma lru_find_removelast (key : cache_key)
  (table : list (cache_key * FeedMessage)) :
  lru_find key table = None -> lru_find key (removelast table) = None.
Proof.
  induction table as [|[k v] table IH]; [reflexivity|].
  cbn [lru_find]. destruct (key_eqb key k) eqn:E; [discriminate|].
  intros H. destruct table as [|kv table]; [reflexivity|].
  change (removelast ((k, v) :: kv :: table))
    with ((k, v) :: removelast (kv :: table)).
  cbn [lru_find]. rewrite E. apply IH, H.
Qed.

Lemma lru_find_store_other (key key' : cache_key) (v : FeedMessage)
  (table : list (cache_key * FeedMessage)) :
  key' <> key -> lru_find key' table = None ->
  lru_find key' (lru_store key v table) = None.
Proof.
  intros Hne Hf. unfold lru_store.
  case_bool_decide; cbn [lru_find]; unfold key_eqb;
    rewrite (bool_decide_eq_false_2 _ Hne);
    [apply lru_find_removelast|]; exact Hf.
Qed.

Lemma lru_remove_length (key : cache_key)
  (table : list (cache_key * FeedMessage)) (v : FeedMessage) :
  lru_find key table = Some v ->
  S (length (lru_remove key table)) = length table.
Proof.
  induction table as [|[k x] table IH]; [discriminate|].
  cbn [lru_find lru_remove]. destruct (key_eqb key k); [reflexivity|].
  intros H. cbn [length]. rewrite IH by exact H. reflexivity.
Qed.

Lemma removelast_shorter {A} (l : list A) :
  length (removelast l) = pred (length l).
Proof.
  induction l as [|x l IH]; [reflexivity|].
  destruct l as [|y l]; [reflexivity|].
  change (removelast (x :: y :: l)) with (x :: removelast (y :: l)).
  cbn [length] in *. rewrite IH. reflexivity.
Qed.

Lemma lru_store_length (key : cache_key) (v : FeedMessage)
  (table : list (cache_key * FeedMessage)) :
  (length table <= lru_maxsize)%nat ->
  (length (lru_store key v table) <= lru_maxsize)%nat.
Proof.
  intros H. unfold lru_store. case_bool_decide as Hfull; cbn [length].
  - rewrite removelast_shorter. unfold lru_maxsize in *. lia.
  - lia.
Qed.

(** A miss: the call fetches, stores and returns what the server serves. *)
Lemma get_gtfs_feed_miss (mode : string) (w : World) (feed : FeedMessage) :
  lru_find (mode, ttl_hash (time_time env (clock_reads w))) (lru w) = None ->
  serves env api_key mode (length (sent w)) feed ->
  get_gtfs_feed env api_key mode w
  = (Ok feed,
     mkWorld (sent w ++ [feed_request api_key mode]) (S (clock_reads w))
       (lru_store (mode, ttl_hash (time_time env (clock_reads w))) feed
          (lru w))).
Proof.
  intros Hmiss Hserved.
  unfold get_gtfs_feed, bind, time, _get_gtfs_feed. cbn [lru].
  rewrite Hmiss.
  rewrite (get_realtime_feed_served mode _ feed) by exact Hserved.
  reflexivity.
Qed.

(** A miss sends the feed request whether or not the fetch succeeds. *)
Lemma get_gtfs_feed_miss_sends (mode : string) (w : World) :
  lru_find (mode, ttl_hash (time_time env (clock_reads w))) (lru w) = None ->
  sent (snd (get_gtfs_feed env api_key mode w))
  = sent w ++ [feed_request api_key mode].
Proof.
  intros Hmiss.
  unfold get_gtfs_feed, bind, time, _get_gtfs_feed. cbn [lru].
  rewrite Hmiss.
  pose proof (get_realtime_feed_sends mode
    (mkWorld (sent w) (S (clock_reads w)) (lru w))) as Hs.
  destruct (get_realtime_feed env api_key mode _) as [[v|e] w'];
    cbn [snd] in *; subst w'; reflexivity.
Qed.

(** A hit: the call returns the stored feed and sends nothing. *)
Lemma get_gtfs_feed_hit (mode : string) (w : World) (feed : FeedMessage) :
  lru_find (mode, ttl_hash (time_time env (clock_reads w))) (lru w)
  = Some feed ->
  get_gtfs_feed env api_key mode w
  = (Ok feed,
     mkWorld (sent w) (S (clock_reads w))
       (((mode, ttl_hash (time_time env (clock_reads w))), feed)
        :: lru_remove (mode, ttl_hash (time_time env (clock_reads w)))
             (lru w))).
Proof.
  intros Hhit. unfold get_gtfs_feed, bind, time, _get_gtfs_feed. cbn [lru].
  rewrite Hhit. reflexivity.
Qed.

Lemma lru_find_store_same (key : cache_key) (v : FeedMessage)
  (table : list (cache_key * FeedMessage)) :
  lru_find key (lru_store key v table) = Some v
  /\ lru_remove key (lru_store key v table)
     = tail (lru_store key v table).
Proof.
  unfold lru_store. case_bool_decide; cbn [lru_find lru_remove tail];
    unfold key_eqb; rewrite bool_decide_eq_true_2 by reflexivity; auto.
Qed.


(** The table never grows beyond [lru_maxsize]. *)
Lemma get_gtfs_feed_bounded (mode : string) (w : World) :
  (length (lru w) <= lru_maxsize)%nat ->
  (length (lru (snd (get_gtfs_feed env api_key mode w))) <= lru_maxsize)%nat.
Proof.
  intros Hlen. unfold get_gtfs_feed, bind, time, _get_gtfs_feed. cbn [lru].
  destruct (lru_find _ (lru w)) as [v|] eqn:E.
  - cbn [snd set_lru lru length]. rewrite (lru_remove_length _ _ _ E).
    exact Hlen.
  - pose proof (get_realtime_feed_sends mode
      (mkWorld (sent w) (S (clock_reads w)) (lru w))) as Hs.
    destruct (get_realtime_feed env api_key mode _) as [[v|e] w'];
      cbn [snd] in *; subst w'; cbn [set_lru lru].
    + apply lru_store_length, Hlen.
    + exact Hlen.
Qed.

End CacheFacts.

(** C1.  The bucket of the cache key is [round(now / 60)], a tie going to the
    even minute.  Two calls for one mode whose clock readings round to the
    same bucket, the bucket not being cached yet and the server serving the
    feed, make exactly one fetch, and both return the feed of that fetch; a
    further call whose reading rounds to another bucket, not cached either,
    makes a new fetch. *)
Theorem get_gtfs_feed_one_fetch_per_bucket (env : Env) (api_key mode : string)
  (w : World) (feed : FeedMessage) :
  ttl_hash (time_time env (clock_reads w))
  = ttl_hash (time_time env (S (clock_reads w))) ->
  lru_find (mode, ttl_hash (time_time env (clock_reads w))) (lru w) = None ->
  serves env api_key mode (length (sent w)) feed ->
  exists w2,
    two_calls env api_key mode w = (Ok (feed, feed), w2)
    /\ sent w2 = sent w ++ [feed_request api_key mode]
    /\ (ttl_hash (time_time env (S (S (clock_reads w))))
        <> ttl_hash (time_time env (clock_reads w)) ->
        lru_find (mode, ttl_hash (time_time env (S (S (clock_reads w)))))
          (lru w) = None ->
        sent (snd (get_gtfs_feed env api_key mode w2))
        = sent w ++ [feed_request api_key mode; feed_request api_key mode]).
Proof.
  intros Hsame Hmiss Hserved.
  set (key := (mode, ttl_hash (time_time env (clock_reads w)))) in *.
  pose proof (get_gtfs_feed_miss env api_key mode w feed Hmiss Hserved) as H1.
  fold key in H1.
  set (w1 := mkWorld (sent w ++ [feed_request api_key mode])
               (S (clock_reads w)) (lru_store key feed (lru w))) in *.
  destruct (lru_find_store_same key feed (lru w)) as [Hfind Hrem].
  assert (get_gtfs_feed env api_key mode w1
          = (Ok feed,
             mkWorld (sent w1) (S (clock_reads w1))
               ((key, feed) :: lru_remove key (lru w1)))) as H2.
  { pose proof (get_gtfs_feed_hit env api_key mode w1 feed) as Hh.
    cbn [clock_reads lru w1] in Hh. rewrite <- Hsame in Hh. fold key in Hh.
    apply Hh, Hfind. }
  eexists. split; [|split].
  - unfold two_calls, bind. rewrite H1, H2. reflexivity.
  - reflexivity.
  - intros Hne Hmiss3.
    rewrite get_gtfs_feed_miss_sends.
    + cbn [sent w1]. rewrite <- app_assoc. reflexivity.
    + cbn [clock_reads lru w1]. rewrite Hrem.
      assert ((mode, ttl_hash (time_time env (S (S (clock_reads w))))) <> key)
        as Hk by (unfold key; intros [= E]; exact (Hne E)).
      pose proof (lru_find_store_other key _ feed (lru w) Hk Hmiss3) as Hf.
      unfold lru_store in *. case_bool_decide; exact Hf.
Qed.

(** The theorem for readings of 31 s, 61 s and 95 s on an empty cache: one
    fetch for the first two calls, a second fetch for the third. *)
Lemma get_gtfs_feed_one_fetch_per_bucket_witness :
  ttl_hash 31 = ttl_hash 61 /\ ttl_hash 95 <> ttl_hash 31
  /\ exists w2,
    two_calls (an_env [31; 61; 95]%Q feed_server) "key" "buses" world0
    = (Ok (a_feed "0", a_feed "0"), w2)
    /\ sent w2 = [feed_request "key" "buses"]
    /\ sent (snd (get_gtfs_feed (an_env [31; 61; 95]%Q feed_server) "key"
                    "buses" w2))
       = [feed_request "key" "buses"; feed_request "key" "buses"].
Proof.
  assert (ttl_hash 95 <> ttl_hash 31) as Hne
    by (vm_compute; intros H; discriminate H).
  split; [vm_compute; reflexivity|]. split; [exact Hne|].
  destruct (get_gtfs_feed_one_fetch_per_bucket
              (an_env [31; 61; 95]%Q feed_server) "key" "buses" world0
              (a_feed "0")) as (w2 & Hcalls & Hsent & Hnext).
  - vm_compute. reflexivity.
  - reflexivity.
  - exists 200. split; [reflexivity|]. intros [H _]. revert H. vm_compute.
    intros H. apply H. reflexivity.
  - exists w2. split; [exact Hcalls|]. split; [exact Hsent|].
    apply Hnext; [exact Hne|reflexivity].
Defined.

(** C1 with the bucket [floor(now / 60)] fails both ways.  Readings of 29 s
    and 31 s share the floor bucket 0, yet the two calls make two fetches and
    return different feeds.  Readings of 31 s and 61 s lie in the floor
    buckets 0 and 1, yet the second call makes no fetch. *)
Lemma floor_bucket_is_not_the_cache_key :
  floor_bucket 29 = floor_bucket 31
  /\ two_calls (an_env [29; 31]%Q feed_server) "key" "buses" world0
     = (Ok (a_feed "0", a_feed "1"),
        mkWorld [feed_request "key" "buses"; feed_request "key" "buses"] 2
          [(("buses", 1), a_feed "1"); (("buses", 0), a_feed "0")])
  /\ floor_bucket 61 = floor_bucket 31 + 1
  /\ two_calls (an_env [31; 61]%Q feed_server) "key" "buses" world0
     = (Ok (a_feed "0", a_feed "0"),
        mkWorld [feed_request "key" "buses"] 2
          [(("buses", 1), a_feed "0")]).
Proof. repeat split; vm_compute; reflexivity. Qed.

(** C9 with discarding by age fails: after calls at 0 s and 300 s the cache
    still holds the entry of bucket 0 beside the new entry of bucket 5. *)
Lemma old_bucket_survives_insertion :
  ttl_hash 0 = 0 /\ ttl_hash 300 = 5
  /\ map fst (lru (snd (two_calls (an_env [0; 300]%Q feed_server) "key"
                          "buses" world0)))
     = [("buses", 5); ("buses", 0)].
Proof. repeat split; vm_compute; reflexivity. Qed.

(** ** The coordinator's update: results *)

Section CoordinatorFacts.

Variable env : Env.
Variable api_key : string.




End CoordinatorFacts.




(** A leg without transportation ahead of the first non-walking leg makes the
    update raise as well: the scan of C3 runs inside the loop. *)
Lemma async_update_data_bare_leg_raises :
  exists msg,
    fst (async_update_data
           (an_env [0]%Q
              (trip_server (mkResponse "10.2.1.42" [a_journey [bare_leg]]) 200))
           "key" (a_trip None) world0)
    = Raise (AttributeError msg).
Proof. eexists. vm_compute. reflexivity. Qed.

(** ** Mode filters: further results *)

Section ModeFilterFacts.

(** Whatever the loop returns only differs from what it started with at the
    codes of its entries, which it sets to "1". *)
Lemma set_exclusions_keys (entries : list string)
  (params p : gmap string param) (k : string) :
  set_exclusions entries params = Ok p ->
  p !! k = params !! k
  \/ (p !! k = Some (PStr "1")
      /\ exists e, e ∈ entries /\ excl_mot_map !! e = Some k).
Proof.
  revert params. induction entries as [|e entries IH]; intros params;
    cbn [set_exclusions].
  - intros [= ->]. left. reflexivity.
  - destruct (excl_mot_map !! e) as [code|] eqn:Hcode; [|discriminate].
    intros H. destruct (IH _ H) as [Hk|(Hk & x & Hx & Hxk)].
    + destruct (decide (code = k)) as [->|Hne].
      * right. rewrite Hk, lookup_insert_eq. split; [reflexivity|].
        exists e. split; [apply elem_of_cons; left; reflexivity|exact Hcode].
      * left. rewrite Hk. apply lookup_insert_ne, Hne.
    + right. split; [exact Hk|]. exists x. split; [|exact Hxk].
      apply elem_of_cons. right. exact Hx.
Qed.

Lemma set_exclusions_unknown (known : list string) (bad : string)
  (rest : list string) (params : gmap string param) :
  Forall (fun e => is_Some (excl_mot_map !! e)) known ->
  excl_mot_map !! bad = None ->
  set_exclusions (known ++ bad :: rest) params = Raise (KeyError bad).
Proof.
  intros Hk Hbad. revert params.
  induction known as [|e known IH]; intros params; cbn [app set_exclusions].
  - rewrite Hbad. reflexivity.
  - inversion Hk as [|? ? [code Hcode] Hk']; subst. rewrite Hcode.
    apply IH, Hk'.
Qed.

Lemma code_is_not_excludedMeans (mode : string) :
  excl_mot_map !! mode <> Some "excludedMeans".
Proof.
  rewrite excl_mot_map_lookup, !elem_of_cons, elem_of_nil.
  intros H. destruct_or!; simplify_eq.
Qed.

End ModeFilterFacts.

(** X1.  An exclusion list of modes of the table, given without an inclusion
    list (or with an empty one), is sent as it is: the parameters hold
    [excludedMeans = "checkbox"], the flag "1" at the code of every listed
    mode and no flag at the code of any other mode. *)
Theorem get_exclude_mot_params_exclude (include_mot : option (list string))
  (mots : list string) :
  include_mot = None \/ include_mot = Some [] ->
  Forall (fun m => is_Some (excl_mot_map !! m)) mots ->
  exists p,
    get_exclude_mot_params include_mot (Some mots) = Ok p
    /\ p !! "excludedMeans" = Some (PStr "checkbox")
    /\ forall mode code, excl_mot_map !! mode = Some code ->
         p !! code = if bool_decide (mode ∈ mots) then Some (PStr "1")
                     else None.
Proof.
  intros Hinc Hknown.
  set (p0 := <["excludedMeans" := PStr "checkbox"]> (∅ : gmap string param)).
  destruct (set_exclusions_known mots p0 Hknown) as (p & Hp & Hset & Hkeep).
  exists p. split; [|split].
  - destruct Hinc as [-> | ->]; exact Hp.
  - rewrite Hkeep; [apply lookup_insert_eq|].
    intros e _. apply code_is_not_excludedMeans.
  - intros mode code Hcode. case_bool_decide as Hin.
    + exact (Hset mode code Hin Hcode).
    + rewrite Hkeep.
      * apply (excl_code_not_base mode code _ Hcode).
        intros c Hc. unfold all_codes in Hc.
        rewrite !elem_of_cons, elem_of_nil in Hc.
        destruct_or!; try contradiction; subst c; vm_compute; reflexivity.
      * intros e He Hec. apply Hin.
        rewrite <- (excl_mot_map_inj e mode code Hec Hcode). exact He.
Qed.

(** The theorem for the exclusion of ferries and coaches. *)
Lemma get_exclude_mot_params_exclude_witness :
  exists p,
    get_exclude_mot_params None (Some ["ferry"; "coach"]) = Ok p
    /\ p !! "excludedMeans" = Some (PStr "checkbox")
    /\ forall mode code, excl_mot_map !! mode = Some code ->
         p !! code = if bool_decide (mode ∈ ["ferry"; "coach"])
                     then Some (PStr "1") else None.
Proof.
  apply (get_exclude_mot_params_exclude None ["ferry"; "coach"]).
  - left. reflexivity.
  - repeat constructor; eexists; vm_compute; reflexivity.
Defined.

(** X2.  An exclusion list that names a mode the table does not know raises
    [KeyError] with the first such name, whatever follows it. *)
Theorem get_exclude_mot_params_unknown_mode (include_mot : option (list string))
  (known : list string) (bad : string) (rest : list string) :
  include_mot = None \/ include_mot = Some [] ->
  Forall (fun m => is_Some (excl_mot_map !! m)) known ->
  excl_mot_map !! bad = None ->
  get_exclude_mot_params include_mot (Some (known ++ bad :: rest))
  = Raise (KeyError bad).
Proof.
  intros Hinc Hknown Hbad.
  destruct Hinc as [-> | ->]; cbn [get_exclude_mot_params];
    apply set_exclusions_unknown; assumption.
Qed.

(** The theorem for the list bus, tram, metro: "tram" is the first unknown
    name. *)
Lemma get_exclude_mot_params_unknown_mode_witness :
  get_exclude_mot_params None (Some (["bus"] ++ "tram" :: ["metro"]))
  = Raise (KeyError "tram").
Proof.
  apply (get_exclude_mot_params_unknown_mode None ["bus"] "tram" ["metro"]).
  - left. reflexivity.
  - repeat constructor; eexists; vm_compute; reflexivity.
  - vm_compute. reflexivity.
Defined.

(** X3.  An inclusion list that is not empty never raises, whatever names it
    holds and whatever the exclusion list; when none of its names is a mode
    of the table, all six modes are excluded. *)
Theorem get_exclude_mot_params_include_never_raises (m : string)
  (ms : list string) (exclude_mot : option (list string)) :
  exists p,
    get_exclude_mot_params (Some (m :: ms)) exclude_mot = Ok p
    /\ ((forall x, x ∈ m :: ms -> excl_mot_map !! x = None) ->
        forall c, c ∈ all_codes -> p !! c = Some (PStr "1")).
Proof.
  destruct (get_exclude_mot_params_include m ms exclude_mot)
    as (p & Hp & Hflags).
  exists p. split; [exact Hp|]. intros Hunknown c Hc.
  assert (exists mode, excl_mot_map !! mode = Some c) as [mode Hmode].
  { unfold all_codes in Hc. rewrite !elem_of_cons, elem_of_nil in Hc.
    destruct_or!; try contradiction; subst c;
      [exists "train"|exists "light_rail"|exists "bus"|exists "coach"
      |exists "ferry"|exists "school_bus"]; vm_compute; reflexivity. }
  rewrite (Hflags mode c Hmode). rewrite bool_decide_eq_false_2; [reflexivity|].
  intros Hin. rewrite (Hunknown mode Hin) in Hmode. discriminate.
Qed.

(** The theorem for the inclusion list tram, metro. *)
Lemma get_exclude_mot_params_include_never_raises_witness :
  exists p,
    get_exclude_mot_params (Some ["tram"; "metro"]) None = Ok p
    /\ forall c, c ∈ all_codes -> p !! c = Some (PStr "1").
Proof.
  destruct (get_exclude_mot_params_include_never_raises "tram" ["metro"] None)
    as (p & Hp & Hall).
  exists p. split; [exact Hp|]. apply Hall.
  intros x Hx. rewrite !elem_of_cons, elem_of_nil in Hx.
  destruct_or!; try contradiction; subst x; vm_compute; reflexivity.
Defined.

(** The shape of the exclusion parameters. *)
Lemma exclude_mot_params_shape
  (include_mot exclude_mot : option (list string)) (p : gmap string param) :
  get_exclude_mot_params include_mot exclude_mot = Ok p ->
  (forall k, is_Some (p !! k) -> k = "excludedMeans" \/ k ∈ all_codes)
  /\ p !! "excludedMeans"
     = if match include_mot with Some (_ :: _) => true | _ => false end
          || bool_decide (is_Some exclude_mot)
       then Some (PStr "checkbox") else None.
Proof.
  intros Hp.
  assert (forall entries,
            set_exclusions entries
              (<["excludedMeans" := PStr "checkbox"]> ∅) = Ok p ->
            (forall k, is_Some (p !! k) -> k = "excludedMeans" \/ k ∈ all_codes)
            /\ p !! "excludedMeans" = Some (PStr "checkbox")) as Hloop.
  { intros entries H. split.
    - intros k [v Hv].
      destruct (set_exclusions_keys entries _ p k H) as [Hk|(_ & e & _ & He)].
      + destruct (decide (k = "excludedMeans")) as [->|Hne]; [left; reflexivity|].
        rewrite Hv, lookup_insert_ne, lookup_empty in Hk by congruence.
        discriminate.
      + right. apply excl_mot_map_lookup in He. unfold all_codes.
        rewrite !elem_of_cons, elem_of_nil in *.
        destruct_or!; try solve [inversion He]; simplify_eq;
          repeat (first [left; reflexivity | right]).
    - destruct (set_exclusions_keys entries _ p "excludedMeans" H)
        as [Hk|(_ & e & _ & He)].
      + rewrite Hk. apply lookup_insert_eq.
      + exfalso. exact (code_is_not_excludedMeans e He). }
  unfold get_exclude_mot_params in Hp.
  destruct include_mot as [[|m ms]|].
  - destruct exclude_mot as [mots|]; cbn [orb].
    + rewrite bool_decide_eq_true_2 by eauto. exact (Hloop mots Hp).
    + injection Hp as <-. rewrite bool_decide_eq_false_2
        by (intros [x Hx]; discriminate).
      split; [|apply lookup_empty].
      intros k [v Hv]. rewrite lookup_empty in Hv. discriminate.
  - cbn [orb]. exact (Hloop _ Hp).
  - destruct exclude_mot as [mots|]; cbn [orb].
    + rewrite bool_decide_eq_true_2 by eauto. exact (Hloop mots Hp).
    + injection Hp as <-. rewrite bool_decide_eq_false_2
        by (intros [x Hx]; discriminate).
      split; [|apply lookup_empty].
      intros k [v Hv]. rewrite lookup_empty in Hv. discriminate.
Qed.

(** X4.  Whenever [get_exclude_mot_params] returns, its parameters have no
    key besides [excludedMeans] and the six codes; [excludedMeans] is there,
    with the value "checkbox", exactly when the inclusion list is not empty or
    an exclusion list is given. *)
Theorem get_exclude_mot_params_keys
  (include_mot exclude_mot : option (list string)) (p : gmap string param) :
  get_exclude_mot_params include_mot exclude_mot = Ok p ->
  (forall k, is_Some (p !! k) -> k = "excludedMeans" \/ k ∈ all_codes)
  /\ p !! "excludedMeans"
     = if match include_mot with Some (_ :: _) => true | _ => false end
          || bool_decide (is_Some exclude_mot)
       then Some (PStr "checkbox") else None.
Proof. apply exclude_mot_params_shape. Qed.

(** The theorem for the exclusion of trains. *)
Lemma get_exclude_mot_params_keys_witness :
  exists p,
    get_exclude_mot_params None (Some ["train"]) = Ok p
    /\ (forall k, is_Some (p !! k) -> k = "excludedMeans" \/ k ∈ all_codes)
    /\ p !! "excludedMeans" = Some (PStr "checkbox").
Proof.
  eexists. split; [reflexivity|].
  exact (get_exclude_mot_params_keys None (Some ["train"]) _ eq_refl).
Defined.

(** ** The trip request: further results *)

Section TripRequestShape.

Variable env : Env.
Variable api_key origin destination : string.
Variable n : Z.

(** What a call that passes the two guards does: it reads the clock when no
    time is given, sends one request and turns the answer into its result. *)
Lemma get_trip_run (depart_at arrive_by : option datetime)
  (include_mot exclude_mot : option (list string))
  (p : gmap string param) (w : World) :
  ~ (is_Some depart_at /\ is_Some arrive_by) ->
  ~ (is_Some include_mot /\ is_Some exclude_mot) ->
  get_exclude_mot_params include_mot exclude_mot = Ok p ->
  get_trip env api_key origin destination n depart_at arrive_by
    include_mot exclude_mot w
  = (let resp := http_get env (length (sent w))
                   (the_trip_request env api_key origin destination n depart_at arrive_by p w) in
     if bool_decide (400 <= status_code resp < 600)
     then Raise (HTTPError (status_code resp))
     else match body resp with
          | TripPayload r => Ok r
          | _ => Raise (ValidationError "TripRequestResponse")
          end,
     mkWorld (sent w ++ [the_trip_request env api_key origin destination n depart_at arrive_by p w])
       (match depart_at, arrive_by with
        | None, None => S (clock_reads w)
        | _, _ => clock_reads w
        end)
       (lru w)).
Proof.
  intros Hd Hm Hp. unfold get_trip.
  rewrite <- bool_decide_and, (bool_decide_eq_false_2 _ Hd).
  rewrite <- bool_decide_and, (bool_decide_eq_false_2 _ Hm).
  unfold bind, lift. rewrite Hp. unfold the_trip_request, search_time.
  destruct depart_at as [d|], arrive_by as [a|];
    [exfalso; apply Hd; split; eauto| | |].
  all: unfold ret, now, requests_get, raise_for_status; cbn [fst snd sent
         clock_reads lru]; case_bool_decide; unfold raise, ret;
    [reflexivity | destruct (body _); reflexivity].
Qed.

Lemma base_param_kept (k : string) (v : param) (arrive_by : option datetime)
  (itd : datetime) (p : gmap string param) :
  k <> "excludedMeans" -> k ∉ all_codes ->
  (forall k', is_Some (p !! k') -> k' = "excludedMeans" \/ k' ∈ all_codes) ->
  trip_params origin destination n arrive_by itd ∅ !! k = Some v ->
  trip_params origin destination n arrive_by itd p !! k = Some v.
Proof.
  intros H1 H2 Hkeys Hbase. unfold trip_params in *.
  rewrite lookup_union_r in Hbase by apply lookup_empty.
  rewrite lookup_union_r; [exact Hbase|].
  destruct (p !! k) as [x|] eqn:E; [|reflexivity].
  destruct (Hkeys k) as [->| Hin]; [eauto|contradiction|contradiction].
Qed.

End TripRequestShape.

Section TripFilterError.

Lemma set_exclusions_raises (entries : list string)
  (params : gmap string param) (e : exn) :
  set_exclusions entries params = Raise e ->
  exists bad, bad ∈ entries /\ excl_mot_map !! bad = None /\ e = KeyError bad.
Proof.
  revert params. induction entries as [|x entries IH]; intros params;
    cbn [set_exclusions]; [discriminate|].
  destruct (excl_mot_map !! x) as [code|] eqn:Hx.
  - intros H. destruct (IH _ H) as (bad & Hin & Hbad & ->).
    exists bad. split; [apply elem_of_cons; right; exact Hin|]. auto.
  - intros [= <-]. exists x. split; [apply elem_of_cons; left; reflexivity|].
    auto.
Qed.

(** The translation of the mode filter raises for one reason only. *)
Lemma get_exclude_mot_params_raises
  (include_mot exclude_mot : option (list string)) (e : exn) :
  get_exclude_mot_params include_mot exclude_mot = Raise e ->
  unknown_mode_error exclude_mot e.
Proof.
  intros H. destruct include_mot as [[|m ms]|].
  - cbn [get_exclude_mot_params] in H.
    destruct exclude_mot as [mots|]; [|discriminate].
    destruct (set_exclusions_raises _ _ _ H) as (bad & Hin & Hbad & ->).
    exists mots, bad. auto.
  - destruct (get_exclude_mot_params_include m ms exclude_mot) as (p & Hp & _).
    rewrite Hp in H. discriminate.
  - cbn [get_exclude_mot_params] in H.
    destruct exclude_mot as [mots|]; [|discriminate].
    destruct (set_exclusions_raises _ _ _ H) as (bad & Hin & Hbad & ->).
    exists mots, bad. auto.
Qed.

(** A call that passes the two guards and whose mode filter cannot be
    translated raises what the translation raises, before the clock is read
    or anything is sent. *)
Lemma get_trip_filter_error (env : Env) (api_key origin destination : string)
  (n : Z) (depart_at arrive_by : option datetime)
  (include_mot exclude_mot : option (list string)) (e : exn) (w : World) :
  ~ (is_Some depart_at /\ is_Some arrive_by) ->
  ~ (is_Some include_mot /\ is_Some exclude_mot) ->
  get_exclude_mot_params include_mot exclude_mot = Raise e ->
  get_trip env api_key origin destination n depart_at arrive_by
    include_mot exclude_mot w = (Raise e, w).
Proof.
  intros Hd Hm He. unfold get_trip.
  rewrite <- bool_decide_and, (bool_decide_eq_false_2 _ Hd).
  rewrite <- bool_decide_and, (bool_decide_eq_false_2 _ Hm).
  unfold bind, lift. rewrite He. reflexivity.
Qed.

End TripFilterError.

(** X5.  A call of [get_trip] that passes its guards, for a search time that
    is a date and time of the calendar, either raises the [KeyError] of a
    mode filter that names an unknown mode, and then sends nothing and does
    not read the clock, or sends one request.  The search time of that
    request is [depart_at] when given, else [arrive_by] when given, else the
    clock, which is read in that last case only; its date is the year,
    unpadded, followed by month and day on two digits each, its time is hour
    and minute on two digits each; the request is an arrival search exactly
    when [arrive_by] is given. *)
Theorem get_trip_search_time (env : Env) (api_key origin destination : string)
  (n : Z) (depart_at arrive_by : option datetime)
  (include_mot exclude_mot : option (list string)) (w : World) :
  ~ (is_Some depart_at /\ is_Some arrive_by) ->
  ~ (is_Some include_mot /\ is_Some exclude_mot) ->
  valid_datetime (search_time env depart_at arrive_by (clock_reads w)) ->
  match get_exclude_mot_params include_mot exclude_mot with
  | Raise e =>
      unknown_mode_error exclude_mot e
      /\ get_trip env api_key origin destination n depart_at arrive_by
           include_mot exclude_mot w = (Raise e, w)
  | Ok _ =>
      exists req w',
        snd (get_trip env api_key origin destination n depart_at arrive_by
               include_mot exclude_mot w) = w'
        /\ sent w' = sent w ++ [req]
        /\ req_params req !! "depArrMacro"
           = Some (PStr (if arrive_by is Some _ then "arr" else "dep"))
        /\ req_params req !! "itdDate"
           = Some (PStr (strftime_Ymd
                           (search_time env depart_at arrive_by
                              (clock_reads w))))
        /\ req_params req !! "itdTime"
           = Some (PStr (strftime_HM
                           (search_time env depart_at arrive_by
                              (clock_reads w))))
        /\ clock_reads w'
           = match depart_at, arrive_by with
             | None, None => S (clock_reads w)
             | _, _ => clock_reads w
             end
  end.
Proof.
  intros Hd Hm _.
  destruct (get_exclude_mot_params include_mot exclude_mot) as [p|e] eqn:Hp;
    [|split; [exact (get_exclude_mot_params_raises _ _ _ Hp)
             |apply get_trip_filter_error; assumption]].
  rewrite (get_trip_run env api_key origin destination n depart_at arrive_by
             include_mot exclude_mot p w Hd Hm Hp).
  eexists _, _. split; [reflexivity|]. cbn [snd sent clock_reads].
  split; [reflexivity|].
  pose proof (exclude_mot_params_shape include_mot exclude_mot p Hp)
    as [Hkeys _].
  unfold the_trip_request. cbn [req_params].
  repeat split;
    (apply base_param_kept;
      [discriminate
      |apply (bool_decide_unpack _); vm_compute; reflexivity
      |exact Hkeys
      |destruct arrive_by; vm_compute; reflexivity]).
Qed.

(** The theorem for an arrival search on the 7th of March 987 at 17:05 that
    excludes ferries. *)
Lemma get_trip_search_time_witness :
  exists req w',
    snd (get_trip (an_env [] feed_server) "key" "10101100" "10101200" 2
           None (Some (mkDatetime 987 3 7 17 5)) None (Some ["ferry"])
           world0) = w'
    /\ sent w' = sent world0 ++ [req]
    /\ req_params req !! "depArrMacro" = Some (PStr "arr")
    /\ req_params req !! "itdDate" = Some (PStr "9870307")
    /\ req_params req !! "itdTime" = Some (PStr "1705")
    /\ clock_reads w' = clock_reads world0.
Proof.
  pose proof (get_trip_search_time (an_env [] feed_server) "key" "10101100"
                "10101200" 2 None (Some (mkDatetime 987 3 7 17 5)) None
                (Some ["ferry"]) world0) as H.
  destruct (get_exclude_mot_params None (Some ["ferry"])) as [p|e] eqn:Hp;
    [|vm_compute in Hp; discriminate Hp].
  apply H.
  - intros [[x Hx] _]. discriminate Hx.
  - intros [[x Hx] _]. discriminate Hx.
  - unfold valid_datetime. cbn. lia.
Defined.

(** X6.  A call of [get_trip] that passes its guards either raises the
    [KeyError] of a mode filter that names an unknown mode, and then sends
    nothing, or sends its request to the trip endpoint with the API key in
    its [Authorization] header; whatever the filter, it overrides none of the
    fixed parameters: origin, destination, number of trips, output format,
    version and the rest are sent as [get_trip] sets them. *)
Theorem get_trip_fixed_parameters (env : Env)
  (api_key origin destination : string) (n : Z)
  (depart_at arrive_by : option datetime)
  (include_mot exclude_mot : option (list string)) (w : World) :
  ~ (is_Some depart_at /\ is_Some arrive_by) ->
  ~ (is_Some include_mot /\ is_Some exclude_mot) ->
  match get_exclude_mot_params include_mot exclude_mot with
  | Raise e =>
      unknown_mode_error exclude_mot e
      /\ get_trip env api_key origin destination n depart_at arrive_by
           include_mot exclude_mot w = (Raise e, w)
  | Ok _ =>
      exists req,
        sent (snd (get_trip env api_key origin destination n depart_at
                     arrive_by include_mot exclude_mot w)) = sent w ++ [req]
        /\ req_url req = "https://api.transport.nsw.gov.au/v1/tp/trip"
        /\ req_headers req = [("Authorization", "apikey " +:+ api_key)]
        /\ req_params req !! "name_origin" = Some (PStr origin)
        /\ req_params req !! "name_destination" = Some (PStr destination)
        /\ req_params req !! "calcNumberOfTrips" = Some (PNum n)
        /\ req_params req !! "type_origin" = Some (PStr "any")
        /\ req_params req !! "type_destination" = Some (PStr "any")
        /\ req_params req !! "outputFormat" = Some (PStr "rapidJSON")
        /\ req_params req !! "version" = Some (PStr "10.2.1.42")
        /\ req_params req !! "TfNSWTR" = Some (PStr "true")
  end.
Proof.
  intros Hd Hm.
  destruct (get_exclude_mot_params include_mot exclude_mot) as [p|e] eqn:Hp;
    [|split; [exact (get_exclude_mot_params_raises _ _ _ Hp)
             |apply get_trip_filter_error; assumption]].
  rewrite (get_trip_run env api_key origin destination n depart_at arrive_by
             include_mot exclude_mot p w Hd Hm Hp).
  eexists. split; [reflexivity|]. split; [reflexivity|].
  split; [reflexivity|].
  pose proof (exclude_mot_params_shape include_mot exclude_mot p Hp)
    as [Hkeys _].
  unfold the_trip_request. cbn [req_params].
  repeat split;
    (apply base_param_kept;
      [discriminate
      |apply (bool_decide_unpack _); vm_compute; reflexivity
      |exact Hkeys
      |destruct arrive_by; vm_compute; reflexivity]).
Qed.

(** The theorem for a search that includes buses only, and for one that
    excludes the unknown mode "tram". *)
Lemma get_trip_fixed_parameters_witness :
  (exists req,
    sent (snd (get_trip (an_env [] feed_server) "key" "10101100" "10101200" 3
                 None None (Some ["bus"]) None world0)) = sent world0 ++ [req]
    /\ req_url req = "https://api.transport.nsw.gov.au/v1/tp/trip"
    /\ req_headers req = [("Authorization", "apikey " +:+ "key")]
    /\ req_params req !! "name_origin" = Some (PStr "10101100")
    /\ req_params req !! "name_destination" = Some (PStr "10101200")
    /\ req_params req !! "calcNumberOfTrips" = Some (PNum 3)
    /\ req_params req !! "type_origin" = Some (PStr "any")
    /\ req_params req !! "type_destination" = Some (PStr "any")
    /\ req_params req !! "outputFormat" = Some (PStr "rapidJSON")
    /\ req_params req !! "version" = Some (PStr "10.2.1.42")
    /\ req_params req !! "TfNSWTR" = Some (PStr "true"))
  /\ get_trip (an_env [] feed_server) "key" "10101100" "10101200" 3
       None None None (Some ["tram"]) world0
     = (Raise (KeyError "tram"), world0).
Proof.
  split.
  - pose proof (get_trip_fixed_parameters (an_env [] feed_server) "key"
                  "10101100" "10101200" 3 None None (Some ["bus"]) None
                  world0) as H.
    destruct (get_exclude_mot_params (Some ["bus"]) None) as [p|e] eqn:Hp;
      [|vm_compute in Hp; discriminate Hp].
    apply H.
    + intros [[x Hx] _]. discriminate Hx.
    + intros [_ [x Hx]]. discriminate Hx.
  - pose proof (get_trip_fixed_parameters (an_env [] feed_server) "key"
                  "10101100" "10101200" 3 None None None (Some ["tram"])
                  world0) as H.
    destruct (get_exclude_mot_params None (Some ["tram"])) as [p|e] eqn:Hp;
      [vm_compute in Hp; discriminate Hp|].
    assert (e = KeyError "tram") as -> by (vm_compute in Hp; congruence).
    apply H.
    + intros [[x Hx] _]. discriminate Hx.
    + intros [[x Hx] _]. discriminate Hx.
Defined.

(** X7.  A call of [get_trip] that passes its guards ends in one of these
    ways.  When its mode filter names an unknown mode it raises that
    [KeyError] and sends nothing.  Otherwise it sends exactly one request;
    when the answer has a status from 400 to 599 it raises [HTTPError] with
    that status, whatever the body of the answer; with any other status and
    a body that is a trip response, it returns that response. *)
Theorem get_trip_outcome (env : Env) (api_key origin destination : string)
  (n : Z) (depart_at arrive_by : option datetime)
  (include_mot exclude_mot : option (list string)) (w : World) :
  ~ (is_Some depart_at /\ is_Some arrive_by) ->
  ~ (is_Some include_mot /\ is_Some exclude_mot) ->
  match get_exclude_mot_params include_mot exclude_mot with
  | Raise e =>
      unknown_mode_error exclude_mot e
      /\ get_trip env api_key origin destination n depart_at arrive_by
           include_mot exclude_mot w = (Raise e, w)
  | Ok p =>
      sent (snd (get_trip env api_key origin destination n depart_at
                   arrive_by include_mot exclude_mot w))
      = sent w ++ [the_trip_request env api_key origin destination n
                     depart_at arrive_by p w]
      /\ forall answer,
           http_get env (length (sent w))
             (the_trip_request env api_key origin destination n depart_at
                arrive_by p w) = answer ->
           (400 <= status_code answer < 600 ->
            fst (get_trip env api_key origin destination n depart_at
                   arrive_by include_mot exclude_mot w)
            = Raise (HTTPError (status_code answer)))
           /\ (forall r, ~ (400 <= status_code answer < 600) ->
                 body answer = TripPayload r ->
                 fst (get_trip env api_key origin destination n depart_at
                        arrive_by include_mot exclude_mot w) = Ok r)
  end.
Proof.
  intros Hd Hm.
  destruct (get_exclude_mot_params include_mot exclude_mot) as [p|e] eqn:Hp;
    [|split; [exact (get_exclude_mot_params_raises _ _ _ Hp)
             |apply get_trip_filter_error; assumption]].
  rewrite (get_trip_run env api_key origin destination n depart_at arrive_by
             include_mot exclude_mot p w Hd Hm Hp).
  cbn zeta. cbn [fst snd sent]. split; [reflexivity|].
  intros answer Hans. rewrite Hans. split.
  - intros Hst. rewrite (bool_decide_eq_true_2 _ Hst). reflexivity.
  - intros r Hst Hbody. rewrite (bool_decide_eq_false_2 _ Hst), Hbody.
    reflexivity.
Qed.

(** The theorem for a server that answers 503 with a well-formed trip
    response in the body, and for a filter that excludes the unknown mode
    "tram". *)
Lemma get_trip_outcome_witness :
  fst (get_trip (an_env [] (fun _ _ =>
                              mkHttpResponse 503 (TripPayload two_journeys)))
         "key" "10101100" "10101200" 1 None None None None world0)
  = Raise (HTTPError 503)
  /\ get_trip (an_env [] (fun _ _ =>
                            mkHttpResponse 503 (TripPayload two_journeys)))
       "key" "10101100" "10101200" 1 None None None (Some ["tram"]) world0
     = (Raise (KeyError "tram"), world0).
Proof.
  split.
  - pose proof (get_trip_outcome
      (an_env [] (fun _ _ => mkHttpResponse 503 (TripPayload two_journeys)))
      "key" "10101100" "10101200" 1 None None None None world0) as H.
    cbn [get_exclude_mot_params] in H.
    destruct H as [_ H].
    + intros [[x Hx] _]. discriminate Hx.
    + intros [[x Hx] _]. discriminate Hx.
    + destruct (H (mkHttpResponse 503 (TripPayload two_journeys)) eq_refl)
        as [Herr _].
      apply Herr. cbn [status_code]. lia.
  - pose proof (get_trip_outcome
      (an_env [] (fun _ _ => mkHttpResponse 503 (TripPayload two_journeys)))
      "key" "10101100" "10101200" 1 None None None (Some ["tram"]) world0)
      as H.
    destruct (get_exclude_mot_params None (Some ["tram"])) as [p|e] eqn:Hp;
      [vm_compute in Hp; discriminate Hp|].
    assert (e = KeyError "tram") as -> by (vm_compute in Hp; congruence).
    apply H.
    + intros [[x Hx] _]. discriminate Hx.
    + intros [[x Hx] _]. discriminate Hx.
Defined.

(** ** Realtime feed cache: further results *)

Section CacheRuns.

Variable env : Env.
Variable api_key : string.

Lemma lru_find_remove_other (key key' : cache_key)
  (table : list (cache_key * FeedMessage)) :
  key' <> key -> lru_find key' (lru_remove key table) = lru_find key' table.
Proof.
  intros Hne. induction table as [|[k v] table IH]; [reflexivity|].
  cbn [lru_remove lru_find]. unfold key_eqb in *.
  case_bool_decide as Hk.
  - subst k. rewrite (bool_decide_eq_false_2 _ Hne). reflexivity.
  - cbn [lru_find]. unfold key_eqb. rewrite IH. reflexivity.
Qed.

Lemma lru_find_None (key : cache_key)
  (table : list (cache_key * FeedMessage)) :
  lru_find key table = None <-> key ∉ map fst table.
Proof.
  induction table as [|[k v] table IH]; cbn [lru_find map fst].
  - split; [intros _ H; inversion H|reflexivity].
  - unfold key_eqb. rewrite not_elem_of_cons. case_bool_decide as Hk.
    + split; [discriminate|]. intros [H _]. contradiction.
    + rewrite IH. tauto.
Qed.

Lemma lru_remove_keys (key : cache_key)
  (table : list (cache_key * FeedMessage)) :
  NoDup (map fst table) ->
  NoDup (map fst (lru_remove key table))
  /\ (key ∉ map fst (lru_remove key table))
  /\ forall k, k ∈ map fst (lru_remove key table) -> k ∈ map fst table.
Proof.
  induction table as [|[k v] table IH]; cbn [lru_remove map fst]; intros Hnd.
  - split; [constructor|]. split; [intros H; inversion H|auto].
  - apply NoDup_cons in Hnd as [Hk Hnd]. unfold key_eqb.
    case_bool_decide as E.
    + subst k. split; [exact Hnd|]. split; [exact Hk|].
      intros x Hx. apply elem_of_cons. right. exact Hx.
    + destruct (IH Hnd) as (H1 & H2 & H3). cbn [map fst].
      split; [|split].
      * apply NoDup_cons. split; [|exact H1]. intros Hin. apply Hk, H3, Hin.
      * rewrite not_elem_of_cons. split; [congruence|exact H2].
      * intros x Hx. apply elem_of_cons in Hx as [->|Hx];
          apply elem_of_cons; [left; reflexivity|right; apply H3, Hx].
Qed.

Lemma removelast_keys (table : list (cache_key * FeedMessage)) :
  NoDup (map fst table) ->
  NoDup (map fst (removelast table))
  /\ forall k, k ∈ map fst (removelast table) -> k ∈ map fst table.
Proof.
  induction table as [|[k v] table IH]; intros Hnd.
  - split; [constructor|auto].
  - destruct table as [|kv table].
    + split; [constructor|]. intros x Hx. inversion Hx.
    + change (removelast ((k, v) :: kv :: table))
        with ((k, v) :: removelast (kv :: table)).
      cbn [map fst] in Hnd |- *. apply NoDup_cons in Hnd as [Hk Hnd].
      destruct (IH Hnd) as [H1 H2]. split.
      * apply NoDup_cons. split; [|exact H1]. intros Hin. apply Hk, H2, Hin.
      * intros x Hx. apply elem_of_cons in Hx as [->|Hx];
          apply elem_of_cons; [left; reflexivity|right; apply H2, Hx].
Qed.

Lemma lru_store_keys (key : cache_key) (v : FeedMessage)
  (table : list (cache_key * FeedMessage)) :
  lru_find key table = None -> NoDup (map fst table) ->
  NoDup (map fst (lru_store key v table)).
Proof.
  intros Hmiss Hnd. apply lru_find_None in Hmiss. unfold lru_store.
  case_bool_decide; cbn [map fst]; apply NoDup_cons.
  - destruct (removelast_keys table Hnd) as [H1 H2]. split; [|exact H1].
    intros Hin. apply Hmiss, H2, Hin.
  - split; assumption.
Qed.

(** The three ways a call can end. *)
Lemma get_gtfs_feed_cases (mode : string) (w : World) :
  let key := (mode, ttl_hash (time_time env (clock_reads w))) in
  (exists v, lru_find key (lru w) = Some v
             /\ get_gtfs_feed env api_key mode w
                = (Ok v, mkWorld (sent w) (S (clock_reads w))
                           ((key, v) :: lru_remove key (lru w))))
  \/ (exists v, lru_find key (lru w) = None
                /\ get_gtfs_feed env api_key mode w
                   = (Ok v, mkWorld (sent w ++ [feed_request api_key mode])
                              (S (clock_reads w)) (lru_store key v (lru w))))
  \/ (exists e, lru_find key (lru w) = None
                /\ get_gtfs_feed env api_key mode w
                   = (Raise e, mkWorld (sent w ++ [feed_request api_key mode])
                                 (S (clock_reads w)) (lru w))).
Proof.
  intros key. unfold get_gtfs_feed, bind, time, _get_gtfs_feed. cbn [lru].
  fold key. destruct (lru_find key (lru w)) as [v|] eqn:E.
  - left. exists v. split; reflexivity.
  - right.
    pose proof (get_realtime_feed_sends env api_key mode
      (mkWorld (sent w) (S (clock_reads w)) (lru w))) as Hs.
    destruct (get_realtime_feed env api_key mode _) as [[v|e] w1];
      cbn [snd sent clock_reads lru] in Hs; subst w1.
    + left. exists v. split; reflexivity.
    + right. exists e. split; reflexivity.
Qed.

Lemma get_gtfs_feed_keys (mode : string) (w : World) :
  NoDup (map fst (lru w)) ->
  NoDup (map fst (lru (snd (get_gtfs_feed env api_key mode w)))).
Proof.
  intros Hnd.
  destruct (get_gtfs_feed_cases mode w)
    as [(v & Hf & ->)|[(v & Hf & ->)|(e & Hf & ->)]]; cbn [snd lru].
  - destruct (lru_remove_keys (mode, ttl_hash (time_time env (clock_reads w)))
                (lru w) Hnd) as (H1 & H2 & _).
    cbn [map fst]. apply NoDup_cons. split; assumption.
  - apply lru_store_keys; assumption.
  - exact Hnd.
Qed.

Lemma after_calls_invariant (modes : list string) (w : World) :
  NoDup (map fst (lru w)) -> (length (lru w) <= lru_maxsize)%nat ->
  NoDup (map fst (lru (after_calls env api_key modes w)))
  /\ (length (lru (after_calls env api_key modes w)) <= lru_maxsize)%nat.
Proof.
  revert w. induction modes as [|mode modes IH]; intros w Hnd Hlen;
    cbn [after_calls]; [auto|].
  apply IH.
  - apply get_gtfs_feed_keys, Hnd.
  - apply get_gtfs_feed_bounded, Hlen.
Qed.

(** Calls that hit: nothing is sent and the entry stays. *)
Lemma calls_hit (mode : string) (b : Z) (feed : FeedMessage) (n : nat)
  (w : World) :
  lru_find (mode, b) (lru w) = Some feed ->
  (forall i, (i < n)%nat ->
     ttl_hash (time_time env (clock_reads w + i)) = b) ->
  exists w',
    calls env api_key mode n w = (Ok (replicate n feed), w')
    /\ sent w' = sent w
    /\ clock_reads w' = (clock_reads w + n)%nat
    /\ lru_find (mode, b) (lru w') = Some feed.
Proof.
  revert w. induction n as [|n IH]; intros w Hfind Hb; cbn [calls].
  - exists w. rewrite Nat.add_0_r. auto.
  - assert (ttl_hash (time_time env (clock_reads w)) = b) as H0.
    { specialize (Hb 0%nat). rewrite Nat.add_0_r in Hb. apply Hb. lia. }
    pose proof (get_gtfs_feed_hit env api_key mode w feed) as Hhit.
    rewrite H0 in Hhit. specialize (Hhit Hfind).
    set (w1 := mkWorld (sent w) (S (clock_reads w))
                 (((mode, b), feed) :: lru_remove (mode, b) (lru w))) in *.
    destruct (IH w1) as (w' & Hcalls & Hsent & Hclock & Hkeep).
    + cbn [lru w1 lru_find]. unfold key_eqb.
      rewrite bool_decide_eq_true_2 by reflexivity. reflexivity.
    + intros i Hi. cbn [clock_reads w1].
      replace (S (clock_reads w) + i)%nat with (clock_reads w + S i)%nat
        by lia.
      apply Hb. lia.
    + exists w'. unfold bind. rewrite Hhit, Hcalls.
      split; [reflexivity|]. split; [exact Hsent|].
      split; [|exact Hkeep]. rewrite Hclock. cbn [clock_reads w1]. lia.
Qed.

End CacheRuns.

(** ** Realtime feed cache: the order of use *)

Section CacheOrder.

Variable env : Env.
Variable api_key : string.

Lemma filter_other_id (k : cache_key) (r : list cache_key) :
  k ∉ r -> filter (fun x => x <> k) r = r.
Proof.
  induction r as [|x r IH]; intros Hk; [reflexivity|].
  apply not_elem_of_cons in Hk as [Hx Hk].
  rewrite filter_cons_True by congruence. rewrite IH by exact Hk.
  reflexivity.
Qed.

Lemma touch_NoDup (k : cache_key) (r : list cache_key) :
  NoDup r -> NoDup (touch k r).
Proof.
  intros Hnd. unfold touch. apply NoDup_cons. split.
  - rewrite list_elem_of_filter. intros [H _]. apply H. reflexivity.
  - apply NoDup_filter, Hnd.
Qed.

Lemma take_NoDup (n : nat) (r : list cache_key) :
  NoDup r -> NoDup (take n r).
Proof.
  intros H. rewrite <- (take_drop n r) in H.
  apply NoDup_app in H as [H _]. exact H.
Qed.

Lemma lru_remove_order (key : cache_key)
  (table : list (cache_key * FeedMessage)) :
  NoDup (map fst table) ->
  map fst (lru_remove key table) = filter (fun x => x <> key) (map fst table).
Proof.
  induction table as [|[k v] table IH]; cbn [lru_remove map fst]; intros Hnd;
    [reflexivity|].
  apply NoDup_cons in Hnd as [Hk Hnd]. unfold key_eqb.
  case_bool_decide as E.
  - subst k. rewrite filter_cons_False by (intros H; apply H; reflexivity).
    symmetry. apply filter_other_id, Hk.
  - rewrite filter_cons_True by congruence. cbn [map fst].
    rewrite IH by exact Hnd. reflexivity.
Qed.

Lemma removelast_take {A : Type} (l : list A) :
  removelast l = take (length l - 1) l.
Proof.
  rewrite removelast_firstn_len. f_equal. lia.
Qed.

(** A hit: removing a key found among the first [n] keys. *)
Lemma filter_take_hit (k : cache_key) (r : list cache_key) (n : nat) :
  NoDup r -> k ∈ take n r ->
  filter (fun x => x <> k) (take n r)
  = take (n - 1) (filter (fun x => x <> k) r).
Proof.
  revert n. induction r as [|x r IH]; intros n Hnd Hin.
  - rewrite take_nil in Hin. inversion Hin.
  - destruct n as [|n]; [inversion Hin|].
    apply NoDup_cons in Hnd as [Hx Hnd]. cbn [take].
    replace (S n - 1)%nat with n by lia.
    destruct (decide (x = k)) as [->|Hne].
    + rewrite !filter_cons_False by (intros H; apply H; reflexivity).
      rewrite (filter_other_id k r Hx). apply filter_other_id.
      intros H. apply Hx. apply (subseteq_take n r), H.
    + rewrite !filter_cons_True by exact Hne.
      apply elem_of_cons in Hin as [->|Hin]; [contradiction|].
      destruct n as [|n]; [inversion Hin|]. cbn [take].
      rewrite (IH (S n) Hnd Hin).
      replace (S n - 1)%nat with n by lia. reflexivity.
Qed.

(** A miss: the key is not among the first [n] keys. *)
Lemma take_filter_miss (k : cache_key) (r : list cache_key) (n : nat) :
  k ∉ take n r -> take n (filter (fun x => x <> k) r) = take n r.
Proof.
  revert n. induction r as [|x r IH]; intros n Hk; [reflexivity|].
  destruct n as [|n]; [reflexivity|]. cbn [take] in Hk.
  apply not_elem_of_cons in Hk as [Hx Hk].
  rewrite filter_cons_True by congruence. cbn [take].
  rewrite (IH n Hk). reflexivity.
Qed.

Lemma lru_store_order (key : cache_key) (v : FeedMessage)
  (table : list (cache_key * FeedMessage)) (r : list cache_key) :
  map fst table = take lru_maxsize r -> key ∉ map fst table ->
  map fst (lru_store key v table) = take lru_maxsize (touch key r).
Proof.
  intros Hkeys Hmiss. unfold touch.
  change lru_maxsize with (S (lru_maxsize - 1)) at 1. rewrite firstn_cons.
  assert (key ∉ take (lru_maxsize - 1) r) as Hmiss'.
  { intros H. apply Hmiss. rewrite Hkeys.
    replace (take (lru_maxsize - 1) r)
      with (take (lru_maxsize - 1) (take lru_maxsize r)) in H
      by (rewrite take_take; f_equal; unfold lru_maxsize; lia).
    apply (subseteq_take _ _ _ H). }
  rewrite (take_filter_miss key r _ Hmiss').
  assert (length table = length (take lru_maxsize r)) as Hlen
    by (rewrite <- Hkeys, length_map; reflexivity).
  rewrite length_take in Hlen.
  unfold lru_store. case_bool_decide as Hfull; cbn [map fst]; f_equal.
  - rewrite removelast_take, <- firstn_map. fold (take (length table - 1) (map fst table)).
    rewrite Hkeys, take_take.
    f_equal. unfold lru_maxsize in *. lia.
  - rewrite Hkeys. rewrite !take_ge; [reflexivity| |];
      unfold lru_maxsize in *; lia.
Qed.

(** One call: a call that returns uses its key, a call that raises leaves the
    order of use as it is. *)
Lemma get_gtfs_feed_order (mode : string) (w : World) (r : list cache_key) :
  NoDup r -> map fst (lru w) = take lru_maxsize r ->
  match get_gtfs_feed env api_key mode w with
  | (Ok _, w') =>
      map fst (lru w')
      = take lru_maxsize (touch (call_key env mode w) r)
  | (Raise _, w') => map fst (lru w') = take lru_maxsize r
  end.
Proof.
  intros Hnd Hkeys.
  destruct (get_gtfs_feed_cases env api_key mode w)
    as [(v & Hf & ->)|[(v & Hf & ->)|(e & Hf & ->)]]; cbn [lru].
  - set (key := (mode, ttl_hash (time_time env (clock_reads w)))) in *.
    assert (key ∈ take lru_maxsize r) as Hin.
    { rewrite <- Hkeys. destruct (decide (key ∈ map fst (lru w))) as [H|H];
        [exact H|]. apply lru_find_None in H. congruence. }
    cbn [map fst]. unfold touch.
    change lru_maxsize with (S (lru_maxsize - 1)) at 1. rewrite firstn_cons.
    f_equal.
    rewrite lru_remove_order
      by (rewrite Hkeys; apply take_NoDup, Hnd).
    rewrite Hkeys. apply filter_take_hit; assumption.
  - apply lru_store_order; [exact Hkeys|]. apply lru_find_None, Hf.
  - exact Hkeys.
Qed.

(** A run of calls: the table holds the [lru_maxsize] most recently used
    keys, most recently used first. *)
Lemma after_calls_order (modes : list string) (w : World)
  (r : list cache_key) :
  NoDup r -> map fst (lru w) = take lru_maxsize r ->
  NoDup (recency r (uses env api_key modes w))
  /\ map fst (lru (after_calls env api_key modes w))
     = take lru_maxsize (recency r (uses env api_key modes w)).
Proof.
  revert w r. induction modes as [|mode modes IH]; intros w r Hnd Hkeys;
    cbn [after_calls uses]; [split; assumption|].
  pose proof (get_gtfs_feed_order mode w r Hnd Hkeys) as Hstep.
  destruct (get_gtfs_feed env api_key mode w) as [[v|e] w1]; cbn [snd].
  - unfold recency. cbn [fold_left]. apply IH; [|exact Hstep].
    apply touch_NoDup, Hnd.
  - apply IH; assumption.
Qed.

End CacheOrder.

(** C9.  The cache discards by count and by order of use, not by age.  Take
    any run of calls on a table of distinct keys, at most 128 of them, and a
    further call that finds no entry and fetches the feed.  Before that call
    the table holds the 128 most recently used keys, most recently used
    first, a hit counting as a use.  The call puts its entry first; it keeps
    every earlier entry, whatever its bucket, when the table held fewer than
    128 entries; when it held 128, it drops exactly the last one, which is the
    least recently used of the cached keys, and keeps all others.  The table
    never exceeds 128 entries. *)
Theorem get_gtfs_feed_evicts_least_recently_used (env : Env)
  (api_key : string) (modes : list string) (mode : string)
  (w0 w w' : World) (feed : FeedMessage) :
  NoDup (map fst (lru w0)) ->
  (length (lru w0) <= lru_maxsize)%nat ->
  after_calls env api_key modes w0 = w ->
  lru_find (call_key env mode w) (lru w) = None ->
  get_gtfs_feed env api_key mode w = (Ok feed, w') ->
  map fst (lru w) = take lru_maxsize (use_order env api_key modes w0)
  /\ lru w'
     = (call_key env mode w, feed)
       :: (if bool_decide (length (lru w) < lru_maxsize)%nat then lru w
           else removelast (lru w))
  /\ map fst (lru w')
     = take lru_maxsize
         (touch (call_key env mode w) (use_order env api_key modes w0))
  /\ (length (lru w) = lru_maxsize ->
      exists k,
        last (map fst (lru w)) = Some k
        /\ use_order env api_key modes w0 !! (lru_maxsize - 1)%nat = Some k
        /\ (k ∉ map fst (lru w'))
        /\ forall k', k' ∈ map fst (lru w) -> k' <> k ->
                      k' ∈ map fst (lru w'))
  /\ (length (lru w') <= lru_maxsize)%nat.
Proof.
  intros Hnd0 Hlen0 <- Hmiss Hcall.
  set (w := after_calls env api_key modes w0) in *.
  set (key := call_key env mode w) in *.
  set (order := use_order env api_key modes w0).
  destruct (after_calls_order env api_key modes w0 (map fst (lru w0)) Hnd0)
    as [Hnd Hkeys].
  { rewrite take_ge; [reflexivity|]. rewrite length_map. exact Hlen0. }
  fold (use_order env api_key modes w0) in Hnd, Hkeys. fold order in Hnd, Hkeys.
  fold w in Hkeys.
  pose proof (get_gtfs_feed_order env api_key mode w order Hnd Hkeys) as Hstep.
  rewrite Hcall in Hstep. fold key in Hstep.
  assert (length (lru w) <= lru_maxsize)%nat as Hlen
    by (apply after_calls_invariant; assumption).
  assert (length (lru w') <= lru_maxsize)%nat as Hlen'.
  { pose proof (get_gtfs_feed_bounded env api_key mode w Hlen) as Hb.
    rewrite Hcall in Hb. exact Hb. }
  assert (key ∉ map fst (lru w)) as Hout by (apply lru_find_None, Hmiss).
  split; [exact Hkeys|]. split; [|split; [exact Hstep|split; [|exact Hlen']]].
  - destruct (get_gtfs_feed_cases env api_key mode w)
      as [(v & Hf & Hc)|[(v & Hf & Hc)|(e & Hf & Hc)]];
      fold (call_key env mode w) in Hf, Hc; fold key in Hf, Hc;
      rewrite Hcall in Hc; [congruence| |discriminate].
    injection Hc as -> ->. cbn [lru]. unfold lru_store.
    repeat case_bool_decide; first [reflexivity | lia].
  - intros Hfull.
    assert (lru_maxsize - 1 < length order)%nat as Hlt.
    { assert (length (map fst (lru w)) = lru_maxsize) as H
        by (rewrite length_map; exact Hfull).
      rewrite Hkeys, length_take in H. unfold lru_maxsize in *. lia. }
    destruct (lookup_lt_is_Some_2 order _ Hlt) as [k Hk].
    assert (take lru_maxsize order = take (lru_maxsize - 1) order ++ [k])
      as Hsplit.
    { change lru_maxsize with (S (lru_maxsize - 1)) at 1.
      apply take_S_r, Hk. }
    assert (key ∉ take (lru_maxsize - 1) order) as Hout'.
    { intros H. apply Hout. rewrite Hkeys, Hsplit. apply elem_of_app.
      left. exact H. }
    assert (map fst (lru w') = key :: take (lru_maxsize - 1) order) as Hnew.
    { rewrite Hstep. unfold touch.
      change lru_maxsize with (S (lru_maxsize - 1)) at 1.
      rewrite firstn_cons, (take_filter_miss key order _ Hout').
      reflexivity. }
    assert (NoDup (take (lru_maxsize - 1) order ++ [k])) as Hnd'
      by (rewrite <- Hsplit; apply take_NoDup, Hnd).
    apply NoDup_app in Hnd' as (_ & Hsep & _).
    exists k. split; [|split; [exact Hk|split]].
    + rewrite Hkeys, Hsplit. apply last_snoc.
    + rewrite Hnew, not_elem_of_cons. split.
      * intros ->. apply Hout. rewrite Hkeys, Hsplit. apply elem_of_app.
        right. apply elem_of_cons. left. reflexivity.
      * intros H. apply (Hsep k H). apply elem_of_cons. left. reflexivity.
    + intros k' Hin Hne. rewrite Hkeys, Hsplit in Hin.
      apply elem_of_app in Hin as [Hin|Hin].
      * rewrite Hnew. apply elem_of_cons. right. exact Hin.
      * apply elem_of_cons in Hin as [->|Hin]; [contradiction|].
        inversion Hin.
Qed.

(** The theorem on a full table: with the clock at 0 s, calls for the modes
    "0" to "127" fill the table, a further call for "0" is a hit, and a call
    for "new" then drops the entry of "1", the least recently used, and keeps
    that of "0", the oldest. *)
Lemma get_gtfs_feed_evicts_least_recently_used_witness :
  length (lru (after_calls still_clock "key" (many_modes ++ ["0"]) world0))
  = lru_maxsize
  /\ map fst
       (lru (snd (get_gtfs_feed still_clock "key" "new"
                    (after_calls still_clock "key" (many_modes ++ ["0"])
                       world0))))
     = ("new", 0) :: ("0", 0)
       :: ((fun n : nat => (pretty n, 0)) <$> reverse (seq 2 126)).
Proof.
  destruct (get_gtfs_feed_evicts_least_recently_used still_clock "key"
              (many_modes ++ ["0"]) "new" world0
              (after_calls still_clock "key" (many_modes ++ ["0"]) world0)
              (snd (get_gtfs_feed still_clock "key" "new"
                      (after_calls still_clock "key" (many_modes ++ ["0"])
                         world0)))
              (a_feed "128"))
    as (H1 & H2 & H3 & H4 & H5).
  - cbn [world0 lru map]. constructor.
  - cbn [world0 lru length]. unfold lru_maxsize. lia.
  - reflexivity.
  - vm_compute. reflexivity.
  - vm_compute. reflexivity.
  - split; [vm_compute; reflexivity|]. rewrite H3. vm_compute. reflexivity.
Defined.

(** X8.  However many calls for one mode follow each other with clock
    readings that round to one bucket, the bucket not being cached at first
    and the server serving the feed, one request is sent and every call
    returns the feed of that one fetch. *)
Theorem calls_one_fetch (env : Env) (api_key mode : string) (n : nat)
  (w : World) (feed : FeedMessage) :
  (forall i, (i <= n)%nat ->
     ttl_hash (time_time env (clock_reads w + i))
     = ttl_hash (time_time env (clock_reads w))) ->
  lru_find (mode, ttl_hash (time_time env (clock_reads w))) (lru w) = None ->
  serves env api_key mode (length (sent w)) feed ->
  exists w',
    calls env api_key mode (S n) w = (Ok (replicate (S n) feed), w')
    /\ sent w' = sent w ++ [feed_request api_key mode].
Proof.
  intros Hb Hmiss Hserved.
  set (b := ttl_hash (time_time env (clock_reads w))) in *.
  pose proof (get_gtfs_feed_miss env api_key mode w feed Hmiss Hserved) as H1.
  fold b in H1.
  set (w1 := mkWorld (sent w ++ [feed_request api_key mode])
               (S (clock_reads w)) (lru_store (mode, b) feed (lru w))) in *.
  destruct (calls_hit env api_key mode b feed n w1) as (w' & Hc & Hs & _).
  - apply lru_find_store_same.
  - intros i Hi. cbn [clock_reads w1].
    replace (S (clock_reads w) + i)%nat with (clock_reads w + S i)%nat by lia.
    apply Hb. lia.
  - exists w'. cbn [calls]. unfold bind. rewrite H1, Hc.
    split; [reflexivity|exact Hs].
Qed.

(** The theorem for four calls at 31 s, 45 s, 61 s and 89 s on an empty
    cache. *)
Lemma calls_one_fetch_witness :
  exists w',
    calls (an_env [31; 45; 61; 89]%Q feed_server) "key" "buses" 4 world0
    = (Ok (replicate 4 (a_feed "0")), w')
    /\ sent w' = sent world0 ++ [feed_request "key" "buses"].
Proof.
  apply (calls_one_fetch (an_env [31; 45; 61; 89]%Q feed_server) "key"
           "buses" 3 world0 (a_feed "0")).
  - intros i Hi.
    destruct i as [|[|[|[|i]]]]; [vm_compute; reflexivity ..|lia].
  - reflexivity.
  - exists 200. split; [reflexivity|]. intros [H _]. revert H. vm_compute.
    intros H. apply H. reflexivity.
Defined.

(** X9.  A call that raises has missed the cache, has sent its request and
    leaves the table as it was: a failure is not cached, and the next call
    for the same mode and bucket sends the request again. *)
Theorem get_gtfs_feed_failure_not_cached (env : Env) (api_key mode : string)
  (w w' : World) (e : exn) :
  get_gtfs_feed env api_key mode w = (Raise e, w') ->
  lru w' = lru w
  /\ sent w' = sent w ++ [feed_request api_key mode]
  /\ (ttl_hash (time_time env (clock_reads w'))
      = ttl_hash (time_time env (clock_reads w)) ->
      sent (snd (get_gtfs_feed env api_key mode w'))
      = sent w ++ [feed_request api_key mode; feed_request api_key mode]).
Proof.
  intros Hcall.
  destruct (get_gtfs_feed_cases env api_key mode w)
    as [(v & Hf & Hc)|[(v & Hf & Hc)|(e' & Hf & Hc)]];
    rewrite Hc in Hcall; try discriminate.
  injection Hcall as <- <-. cbn [lru sent clock_reads].
  split; [reflexivity|]. split; [reflexivity|].
  intros Hsame. rewrite get_gtfs_feed_miss_sends.
  - cbn [sent]. rewrite <- app_assoc. reflexivity.
  - cbn [clock_reads lru]. rewrite Hsame. exact Hf.
Qed.

(** The theorem for a server that answers 503 at 10 s and at 20 s. *)
Lemma get_gtfs_feed_failure_not_cached_witness :
  get_gtfs_feed (an_env [10; 20]%Q (refusing_server 503)) "key" "buses"
    world0
  = (Raise (HTTPError 503), mkWorld [feed_request "key" "buses"] 1 [])
  /\ sent (snd (get_gtfs_feed (an_env [10; 20]%Q (refusing_server 503)) "key"
                  "buses" (mkWorld [feed_request "key" "buses"] 1 [])))
     = [feed_request "key" "buses"; feed_request "key" "buses"].
Proof.
  assert (get_gtfs_feed (an_env [10; 20]%Q (refusing_server 503)) "key"
            "buses" world0
          = (Raise (HTTPError 503), mkWorld [feed_request "key" "buses"] 1 []))
    as Hcall by (vm_compute; reflexivity).
  split; [exact Hcall|].
  destruct (get_gtfs_feed_failure_not_cached _ _ _ _ _ _ Hcall)
    as (_ & _ & Hretry).
  apply Hretry. vm_compute. reflexivity.
Defined.

(** X10.  Whatever calls are made from the empty cache, for whatever modes
    and whether they return or raise, the cache never holds two entries with
    one key and never more than 128 entries. *)
Theorem cache_entries_distinct_and_bounded (env : Env) (api_key : string)
  (modes : list string) :
  NoDup (map fst (lru (after_calls env api_key modes world0)))
  /\ (length (lru (after_calls env api_key modes world0)) <= lru_maxsize)%nat.
Proof.
  apply after_calls_invariant.
  - constructor.
  - cbn. unfold lru_maxsize. lia.
Qed.

(** X11.  While the cache has room, a call leaves every entry of another key
    where it can be found: only its own key is touched. *)
Theorem get_gtfs_feed_keeps_other_entries (env : Env) (api_key mode : string)
  (w : World) (key : cache_key) :
  (length (lru w) < lru_maxsize)%nat ->
  key <> (mode, ttl_hash (time_time env (clock_reads w))) ->
  lru_find key (lru (snd (get_gtfs_feed env api_key mode w)))
  = lru_find key (lru w).
Proof.
  intros Hroom Hne.
  destruct (get_gtfs_feed_cases env api_key mode w)
    as [(v & Hf & ->)|[(v & Hf & ->)|(e & Hf & ->)]]; cbn [snd lru].
  - cbn [lru_find]. unfold key_eqb. rewrite (bool_decide_eq_false_2 _ Hne).
    apply lru_find_remove_other, Hne.
  - unfold lru_store. rewrite bool_decide_eq_false_2 by lia.
    cbn [lru_find]. unfold key_eqb. rewrite (bool_decide_eq_false_2 _ Hne).
    reflexivity.
  - reflexivity.
Qed.

(** The theorem for a call for ferries on a cache that holds the buses of
    bucket 0. *)
Lemma get_gtfs_feed_keeps_other_entries_witness :
  lru_find ("buses", 0)
    (lru (snd (get_gtfs_feed (an_env [10]%Q feed_server) "key" "ferries"
                 (mkWorld [] 0 [(("buses", 0), a_feed "0")]))))
  = Some (a_feed "0").
Proof.
  refine (get_gtfs_feed_keeps_other_entries (an_env [10]%Q feed_server) "key"
            "ferries" (mkWorld [] 0 [(("buses", 0), a_feed "0")])
            ("buses", 0) _ _).
  - unfold lru_maxsize. cbn [lru length]. lia.
  - intros H. discriminate H.
Defined.

(** ** Leg scan and realtime lookup: further results *)


Section ScanFacts.

Lemma scan_step (leg : JourneyLeg) (rest : list JourneyLeg) :
  (exists msg, transportation leg = None
               /\ get_first_nonwalking_leg (leg :: rest)
                  = Raise (AttributeError msg))
  \/ (nonwalking leg /\ get_first_nonwalking_leg (leg :: rest) = Ok (Some leg))
  \/ (passed_over leg
      /\ get_first_nonwalking_leg (leg :: rest)
         = get_first_nonwalking_leg rest).
Proof.
  destruct (transportation leg) as [tr|] eqn:Htr.
  - right. destruct (nonwalkingb leg) eqn:E.
    + left. apply nonwalkingb_spec in E. split; [exact E|].
      apply first_nonwalking_stop, E.
    + right. assert (~ nonwalking leg) as Hw
        by (rewrite <- nonwalkingb_spec; congruence).
      assert (has_transportation leg) as Ht by (exists tr; exact Htr).
      split; [split; assumption|]. apply first_nonwalking_skip; assumption.
  - left. cbn [get_first_nonwalking_leg]. unfold leg_klass. rewrite Htr.
    eexists. split; reflexivity.
Qed.

Lemma scan_outcome (legs : list JourneyLeg) :
  match get_first_nonwalking_leg legs with
  | Ok None => Forall passed_over legs
  | Ok (Some leg) =>
      exists l1 l2, legs = l1 ++ leg :: l2 /\ nonwalking leg
                    /\ Forall passed_over l1
  | Raise e =>
      exists l1 leg l2 msg,
        e = AttributeError msg /\ legs = l1 ++ leg :: l2
        /\ transportation leg = None /\ Forall passed_over l1
  end.
Proof.
  induction legs as [|x legs IH]; [constructor|].
  destruct (scan_step x legs) as [(msg & Hx & ->)|[[Hx ->]|[Hx ->]]].
  - exists [], x, legs, msg. auto.
  - exists [], legs. auto.
  - destruct (get_first_nonwalking_leg legs) as [[leg|]|e].
    + destruct IH as (l1 & l2 & -> & Hleg & Hall).
      exists (x :: l1), l2. auto.
    + constructor; assumption.
    + destruct IH as (l1 & leg & l2 & msg & -> & -> & Hleg & Hall).
      exists (x :: l1), leg, l2, msg. auto.
Qed.

End ScanFacts.

(** X12.  On any leg sequence, [get_first_nonwalking_leg] ends in one of
    three ways, each telling what was scanned: [None] when every leg has a
    transportation of a walking class; a leg when it is non-walking and every
    leg before it was passed over; [AttributeError] when a leg without
    transportation is reached before any non-walking leg. *)
Theorem get_first_nonwalking_leg_outcome (legs : list JourneyLeg) :
  match get_first_nonwalking_leg legs with
  | Ok None => Forall passed_over legs
  | Ok (Some leg) =>
      exists l1 l2, legs = l1 ++ leg :: l2 /\ nonwalking leg
                    /\ Forall passed_over l1
  | Raise e =>
      exists l1 leg l2 msg,
        e = AttributeError msg /\ legs = l1 ++ leg :: l2
        /\ transportation leg = None /\ Forall passed_over l1
  end.
Proof. apply scan_outcome. Qed.

(** X13.  A leg without transportation that comes after the first non-walking
    leg does no harm to [get_first_nonwalking_leg]: the scan stops before
    it. *)
Theorem get_first_nonwalking_leg_stops_early (l1 l2 : list JourneyLeg)
  (leg : JourneyLeg) :
  Forall passed_over l1 -> nonwalking leg ->
  get_first_nonwalking_leg (l1 ++ leg :: l2) = Ok (Some leg).
Proof.
  intros Hall Hleg. apply first_nonwalking_after_prefix; [| |exact Hleg].
  - eapply Forall_impl; [exact Hall|]. intros x [Hx _]. exact Hx.
  - eapply Forall_impl; [exact Hall|]. intros x [_ Hx]. exact Hx.
Qed.

(** The theorem for walk, bus, and then a leg without transportation. *)
Lemma get_first_nonwalking_leg_stops_early_witness :
  get_first_nonwalking_leg ([walk_leg] ++ bus_leg :: [bare_leg])
  = Ok (Some bus_leg).
Proof.
  apply (get_first_nonwalking_leg_stops_early [walk_leg] [bare_leg] bus_leg).
  - repeat constructor.
    + eexists. reflexivity.
    + rewrite <- nonwalkingb_spec. vm_compute. discriminate.
  - apply nonwalkingb_spec. reflexivity.
Defined.

(** X14.  [find_realtime_info] returns [None] exactly when no entity of the
    feed has the trip id, and otherwise the first entity, in feed order, whose
    trip id equals it. *)
Theorem find_realtime_info_first_match (entities : list FeedEntity)
  (rid : string) :
  match find_realtime_info entities rid with
  | None => Forall (fun e => trip_id e <> rid) entities
  | Some e =>
      exists l1 l2, entities = l1 ++ e :: l2
                    /\ Forall (fun x => trip_id x <> rid) l1
                    /\ trip_id e = rid
  end.
Proof.
  induction entities as [|x l IH]; cbn [find_realtime_info].
  - constructor.
  - case_bool_decide as Hx.
    + exists [], l. auto.
    + destruct (find_realtime_info l rid) as [e|].
      * destruct IH as (l1 & l2 & -> & Hall & He).
        exists (x :: l1), l2. auto.
      * constructor; assumption.
Qed.

(** ** The coordinator's update: further results *)

Section UpdateFacts.

Variable env : Env.
Variable api_key : string.

Lemma get_gtfs_mode_known (k : RouteProductClass) (mode : string) :
  get_gtfs_mode k = Some mode -> mode ∈ realtime_modes.
Proof.
  unfold realtime_modes. rewrite !elem_of_cons.
  destruct k; cbn; intros [= <-]; auto.
Qed.

(** The requests one call of [get_gtfs_feed] adds. *)
Lemma get_gtfs_feed_adds (mode : string) (w : World) :
  sent (snd (get_gtfs_feed env api_key mode w)) = sent w
  \/ sent (snd (get_gtfs_feed env api_key mode w))
     = sent w ++ [feed_request api_key mode].
Proof.
  destruct (get_gtfs_feed_cases env api_key mode w)
    as [(v & _ & ->)|[(v & _ & ->)|(e & _ & ->)]]; cbn [snd sent]; auto.
Qed.

Lemma hydrate_journey_adds (j : Journey) (w : World) :
  exists reqs,
    sent (snd (hydrate_journey env api_key j w)) = sent w ++ reqs
    /\ (length reqs <= 1)%nat
    /\ Forall (fun r => exists mode, mode ∈ realtime_modes
                                     /\ r = feed_request api_key mode) reqs.
Proof.
  assert (exists reqs : list Request,
            sent w = sent w ++ reqs /\ (length reqs <= 1)%nat
            /\ Forall (fun r => exists mode, mode ∈ realtime_modes
                                 /\ r = feed_request api_key mode) reqs)
    as Hnone by (exists []; rewrite app_nil_r; cbn; auto).
  unfold hydrate_journey, bind, lift.
  destruct (get_first_nonwalking_leg (legs j)) as [[leg|]|e];
    cbn [snd]; try exact Hnone.
  unfold leg_transportation.
  destruct (transportation leg) as [tr|]; unfold ret, raise;
    cbn [snd]; try exact Hnone.
  destruct (realtime_trip_id tr) as [rid|]; cbn [snd]; try exact Hnone.
  destruct (get_gtfs_mode (klass (product tr))) as [mode|] eqn:Hmode;
    cbn [snd]; try exact Hnone.
  pose proof (get_gtfs_feed_adds mode w) as Hadd.
  destruct (get_gtfs_feed env api_key mode w) as [[feed|e] w'];
    cbn [snd] in *.
  all: destruct Hadd as [-> | ->]; [exact Hnone|].
  all: exists [feed_request api_key mode]; split; [reflexivity|];
    split; [cbn; lia|]; constructor; [|constructor];
    exists mode; split; [eapply get_gtfs_mode_known, Hmode|reflexivity].
Qed.

Lemma hydrate_adds (js : list Journey)
  (res : list (Journey * option FeedEntity)) (w : World) :
  exists reqs,
    sent (snd (hydrate env api_key js res w)) = sent w ++ reqs
    /\ (length reqs <= length js)%nat
    /\ Forall (fun r => exists mode, mode ∈ realtime_modes
                                     /\ r = feed_request api_key mode) reqs.
Proof.
  revert res w. induction js as [|j js IH]; intros res w; cbn [hydrate].
  - exists []. rewrite app_nil_r. cbn. auto.
  - destruct (hydrate_journey_adds j w) as (r1 & H1 & Hl1 & Hf1).
    unfold bind.
    destruct (hydrate_journey env api_key j w) as [[item|e] w1];
      cbn [snd] in *.
    + destruct (IH (res ++ [item]) w1) as (r2 & H2 & Hl2 & Hf2).
      exists (r1 ++ r2). rewrite H2, H1, <- app_assoc.
      split; [reflexivity|]. split.
      * rewrite length_app. cbn [length]. lia.
      * apply Forall_app. split; assumption.
    + exists r1. split; [exact H1|]. split; [cbn [length]; lia|exact Hf1].
Qed.

End UpdateFacts.

(** X15.  A journey that calls for no lookup (no non-walking leg, or a first
    non-walking leg without realtime trip id or without realtime mode) is
    paired with [None] and touches nothing: no request is sent, the clock is
    not read and the cache is not consulted, whatever the server would
    answer. *)
Theorem hydrate_journey_no_lookup (env : Env) (api_key : string)
  (j : Journey) (w : World) :
  no_realtime j ->
  hydrate_journey env api_key j w = (Ok (j, None), w).
Proof.
  intros [Hnone|(leg & tr & Hleg & Htr & Hor)];
    unfold hydrate_journey, bind, lift.
  - rewrite Hnone. reflexivity.
  - rewrite Hleg. unfold leg_transportation. rewrite Htr. unfold ret at 1.
    destruct Hor as [-> | Hmode].
    + reflexivity.
    + rewrite Hmode. destruct (realtime_trip_id tr); reflexivity.
Qed.

(** The theorem for a taxi ride, on a server that would refuse. *)
Lemma hydrate_journey_no_lookup_witness :
  hydrate_journey (an_env [] (refusing_server 503)) "key"
    (a_journey [walk_leg; taxi_leg]) world0
  = (Ok (a_journey [walk_leg; taxi_leg], None), world0).
Proof.
  apply hydrate_journey_no_lookup. right.
  exists taxi_leg, (a_transportation TAXI (Some "T3")).
  split; [reflexivity|]. split; [reflexivity|]. right. reflexivity.
Defined.

(** X16.  For a journey whose first non-walking leg has a realtime trip id
    and a class with a realtime mode, the bucket of that mode not being
    cached and the server serving the feed, the update sends the one feed
    request of that mode and pairs the journey with what
    [find_realtime_info] finds for the trip id in the served feed. *)
Theorem hydrate_journey_lookup (env : Env) (api_key : string) (j : Journey)
  (w : World) (leg : JourneyLeg) (tr : TripTransportation)
  (rid mode : string) (feed : FeedMessage) :
  get_first_nonwalking_leg (legs j) = Ok (Some leg) ->
  transportation leg = Some tr ->
  realtime_trip_id tr = Some rid ->
  get_gtfs_mode (klass (product tr)) = Some mode ->
  lru_find (mode, ttl_hash (time_time env (clock_reads w))) (lru w) = None ->
  serves env api_key mode (length (sent w)) feed ->
  exists w',
    hydrate_journey env api_key j w
    = (Ok (j, find_realtime_info (entity feed) rid), w')
    /\ sent w' = sent w ++ [feed_request api_key mode].
Proof.
  intros Hleg Htr Hrid Hmode Hmiss Hserved.
  unfold hydrate_journey, bind, lift. rewrite Hleg.
  unfold leg_transportation. rewrite Htr. unfold ret at 1.
  rewrite Hrid, Hmode.
  rewrite (get_gtfs_feed_miss env api_key mode w feed Hmiss Hserved).
  eexists. split; reflexivity.
Qed.

(** The theorem for walk, bus "T1", footpath on an empty cache. *)
Lemma hydrate_journey_lookup_witness :
  exists w',
    hydrate_journey (an_env [0]%Q feed_server) "key"
      (a_journey [walk_leg; bus_leg; footpath_leg]) world0
    = (Ok (a_journey [walk_leg; bus_leg; footpath_leg],
           find_realtime_info (entity (a_feed "0")) "T1"), w')
    /\ sent w' = sent world0 ++ [feed_request "key" "buses"].
Proof.
  apply (hydrate_journey_lookup (an_env [0]%Q feed_server) "key"
           (a_journey [walk_leg; bus_leg; footpath_leg]) world0 bus_leg
           (a_transportation BUS (Some "T1")) "T1" "buses" (a_feed "0")).
  - reflexivity.
  - reflexivity.
  - reflexivity.
  - reflexivity.
  - reflexivity.
  - exists 200. split; [reflexivity|]. intros [H _]. revert H. vm_compute.
    intros H. apply H. reflexivity.
Defined.

(** X17.  After the trip query has returned, the update sends at most one
    request per journey of the response, each of them the feed request of one
    of the four realtime modes, whether the update returns or raises. *)
Theorem async_update_data_requests (env : Env) (api_key : string)
  (trip : Trip) (w w1 : World) (resp : TripRequestResponse) :
  get_trip env api_key (conf_stop_id trip) (conf_destination_stop_id trip)
    (conf_num_journeys trip) None None (conf_modes_of_transport trip) None w
  = (Ok resp, w1) ->
  exists reqs,
    sent (snd (async_update_data env api_key trip w)) = sent w1 ++ reqs
    /\ (length reqs <= length (journeys resp))%nat
    /\ Forall (fun r => exists mode, mode ∈ realtime_modes
                                     /\ r = feed_request api_key mode) reqs.
Proof.
  intros Hresp. unfold async_update_data, bind. rewrite Hresp.
  apply hydrate_adds.
Qed.

(** The theorem for the response of two journeys. *)
Lemma async_update_data_requests_witness :
  exists reqs,
    sent (snd (async_update_data
                 (an_env [0]%Q (trip_server two_journeys 200)) "key"
                 (a_trip None) world0))
    = sent (snd (get_trip (an_env [0]%Q (trip_server two_journeys 200)) "key"
                   "10101100" "10101200" 1 None None None None world0))
      ++ reqs
    /\ (length reqs <= length (journeys two_journeys))%nat
    /\ Forall (fun r => exists mode, mode ∈ realtime_modes
                                     /\ r = feed_request "key" mode) reqs.
Proof.
  apply (async_update_data_requests
           (an_env [0]%Q (trip_server two_journeys 200)) "key" (a_trip None)
           world0 _ two_journeys).
  vm_compute. reflexivity.
Defined.

(** ** Sensors: results *)

Section SensorFacts.

Lemma get_journey_present (d : list (Journey * option FeedEntity))
  (i : nat) (item : Journey * option FeedEntity) :
  d !! i = Some item -> Sensor._get_journey (Some d) i = Return (Some item).
Proof.
  intros Hi. unfold Sensor._get_journey.
  rewrite bool_decide_eq_false_2, Hi; [reflexivity|].
  apply lookup_lt_Some in Hi. lia.
Qed.

Lemma get_journey_absent (data : Sensor.coordinator_data) (i : nat) :
  match data with None => True | Some d => (length d <= i)%nat end ->
  Sensor._get_journey data i = Return None.
Proof.
  destruct data as [d|]; [|reflexivity]. intros Hlen.
  unfold Sensor._get_journey. rewrite bool_decide_eq_true_2 by exact Hlen.
  reflexivity.
Qed.

(** Either the coordinator has a journey at the index, or it has none. *)
Lemma get_journey_cases (data : Sensor.coordinator_data) (i : nat) :
  (exists d item, data = Some d /\ d !! i = Some item
                  /\ Sensor._get_journey data i = Return (Some item))
  \/ (match data with None => True | Some d => (length d <= i)%nat end
      /\ Sensor._get_journey data i = Return None).
Proof.
  destruct data as [d|].
  - destruct (d !! i) as [item|] eqn:E.
    + left. exists d, item. split; [reflexivity|]. split; [exact E|].
      apply get_journey_present, E.
    + right. apply lookup_ge_None in E. split; [exact E|].
      apply (get_journey_absent (Some d)), E.
  - right. split; [exact I|reflexivity].
Qed.

Lemma icon_table (k : RouteProductClass) :
  Sensor.dict_get Sensor.ICONS (Some k) "mdi:clock"
  = match k with
    | TRAIN => "mdi:train"
    | LIGHT_RAIL => "mdi:tram"
    | BUS | COACH | SCHOOL_BUS => "mdi:bus"
    | FERRY => "mdi:ferry"
    | _ => "mdi:clock"
    end.
Proof. destruct k; reflexivity. Qed.

End SensorFacts.

(** X18.  The state of a fare sensor is the rendered price of the first
    ticket for its fare type in the journey at its index.  When the
    coordinator has no data, or no journey at that index, the unpacking of
    [None] raises [TypeError]; the sensor does not return [None].  When the
    journey has no ticket for the fare type, [AttributeError] is raised. *)
Theorem fare_native_value_outcome (str_decimal : Decimal -> string)
  (data : Sensor.coordinator_data) (trip_index : nat) (fare_type : string) :
  match Sensor.fare_native_value str_decimal data trip_index fare_type with
  | Return s =>
      exists d j rt t,
        data = Some d /\ d !! trip_index = Some (j, rt)
        /\ get_ticket (tickets (fare j)) fare_type = Some t
        /\ s = str_decimal (priceBrutto t)
  | Throw (TypeError _) =>
      match data with
      | None => True
      | Some d => (length d <= trip_index)%nat
      end
  | Throw (Exn (AttributeError _)) =>
      exists d j rt,
        data = Some d /\ d !! trip_index = Some (j, rt)
        /\ get_ticket (tickets (fare j)) fare_type = None
  | Throw _ => False
  end.
Proof.
  unfold Sensor.fare_native_value.
  destruct (get_journey_cases data trip_index)
    as [(d & [j rt] & -> & Hi & ->)|[Hnone ->]]; cbn [obind Sensor.unpack].
  - cbn [fst]. destruct (get_ticket (tickets (fare j)) fare_type) as [t|] eqn:E;
      cbn [Sensor.ticket_attr].
    + exists d, j, rt, t. auto.
    + exists d, j, rt. auto.
  - exact Hnone.
Qed.

(** X19.  The icon of a journey sensor is read off the class of the first
    non-walking leg of its journey: train, tram, bus (also for coach and
    school bus), ferry, and the clock for every other class.  A journey with
    walking legs only has no such leg and makes [icon] raise
    [AttributeError]. *)
Theorem icon_of_first_nonwalking_leg (d : list (Journey * option FeedEntity))
  (trip_index : nat) (j : Journey) (rt : option FeedEntity) :
  d !! trip_index = Some (j, rt) ->
  (forall leg tr,
     get_first_nonwalking_leg (legs j) = Ok (Some leg) ->
     transportation leg = Some tr ->
     Sensor.icon (Some d) trip_index
     = Return match klass (product tr) with
              | TRAIN => "mdi:train"
              | LIGHT_RAIL => "mdi:tram"
              | BUS | COACH | SCHOOL_BUS => "mdi:bus"
              | FERRY => "mdi:ferry"
              | _ => "mdi:clock"
              end)
  /\ (get_first_nonwalking_leg (legs j) = Ok None ->
      exists msg,
        Sensor.icon (Some d) trip_index = Throw (Exn (AttributeError msg))).
Proof.
  intros Hi. unfold Sensor.icon.
  rewrite (get_journey_present d trip_index (j, rt) Hi).
  cbn [obind Sensor.unpack fst]. split.
  - intros leg tr Hleg Htr. rewrite Hleg.
    cbn [of_result obind Sensor.leg_attr id].
    unfold Sensor.transportation_attr. rewrite Htr. cbn [obind].
    rewrite icon_table. reflexivity.
  - intros Hnone. rewrite Hnone. cbn [of_result obind Sensor.leg_attr].
    eexists. reflexivity.
Qed.

(** The theorem for a journey by coach and for a walk. *)
Lemma icon_of_first_nonwalking_leg_witness :
  Sensor.icon (Some sensor_data) 0 = Return "mdi:bus"
  /\ exists msg,
       Sensor.icon (Some sensor_data) 1 = Throw (Exn (AttributeError msg)).
Proof.
  split.
  - exact (proj1 (icon_of_first_nonwalking_leg sensor_data 0
                    (a_journey [walk_leg; coach_leg]) None eq_refl)
             coach_leg (a_transportation COACH None) eq_refl eq_refl).
  - exact (proj2 (icon_of_first_nonwalking_leg sensor_data 1
                    (a_journey [walk_leg]) None eq_refl) eq_refl).
Defined.

Section AttributeFacts.

Lemma passed_over_split (l : list JourneyLeg) :
  Forall passed_over l ->
  Forall has_transportation l /\ Forall (fun x => ~ nonwalking x) l.
Proof.
  intros H. split; (eapply Forall_impl; [exact H|]); intros x [H1 H2];
    assumption.
Qed.

Lemma scan_forward (l1 l2 : list JourneyLeg) (o : JourneyLeg) :
  Forall passed_over l1 -> nonwalking o ->
  get_first_nonwalking_leg (l1 ++ o :: l2) = Ok (Some o).
Proof.
  intros H Ho. destruct (passed_over_split l1 H).
  apply first_nonwalking_after_prefix; assumption.
Qed.

Lemma scan_backward (m1 m2 : list JourneyLeg) (e : JourneyLeg) :
  Forall passed_over m2 -> nonwalking e ->
  get_first_nonwalking_leg (reverse (m1 ++ e :: m2)) = Ok (Some e).
Proof.
  intros H He. rewrite reverse_app, reverse_cons, <- app_assoc.
  apply scan_forward; [|exact He]. apply Forall_reverse, H.
Qed.

Lemma scan_walk_only (l : list JourneyLeg) :
  Forall passed_over l ->
  get_first_nonwalking_leg l = Ok None
  /\ get_first_nonwalking_leg (reverse l) = Ok None.
Proof.
  intros H. destruct (passed_over_split l H) as [H1 H2].
  split; apply first_nonwalking_all_walking;
    first [assumption | apply Forall_reverse; assumption].
Qed.

End AttributeFacts.

(** X20.  For a journey whose legs all have a transportation and whose fare
    has a ticket for the sensor's fare type, the attributes of the journey
    sensor name as origin the origin stop of the earliest non-walking leg and
    as destination the destination stop of the latest non-walking leg; they
    carry the ticket's person and rendered price, and the position of the
    realtime entity, or [None] for both coordinates when there is none. *)
Theorem extra_state_attributes_endpoints (str_decimal : Decimal -> string)
  (d : list (Journey * option FeedEntity)) (trip_index : nat) (j : Journey)
  (rt : option FeedEntity) (fare_type : string)
  (l1 l2 m1 m2 : list JourneyLeg) (o e : JourneyLeg)
  (t : JourneyFareTicket) :
  d !! trip_index = Some (j, rt) ->
  Forall has_transportation (legs j) ->
  legs j = l1 ++ o :: l2 -> Forall passed_over l1 -> nonwalking o ->
  legs j = m1 ++ e :: m2 -> Forall passed_over m2 -> nonwalking e ->
  get_ticket (tickets (fare j)) fare_type = Some t ->
  exists attrs,
    Sensor.extra_state_attributes str_decimal (Some d) trip_index fare_type
    = Return attrs
    /\ attrs !! "origin_stop_id" = Some (VStr (stop_id (origin o)))
    /\ attrs !! "origin_name" = Some (VStr (stop_name (origin o)))
    /\ attrs !! "destination_stop_id" = Some (VStr (stop_id (destination e)))
    /\ attrs !! "destination_name" = Some (VStr (stop_name (destination e)))
    /\ attrs !! "fare_type" = Some (VStr (person t))
    /\ attrs !! "fare_price" = Some (VStr (str_decimal (priceBrutto t)))
    /\ attrs !! "latitude"
       = Some (optional (fun x => VFloat (latitude x)) rt)
    /\ attrs !! "longitude"
       = Some (optional (fun x => VFloat (longitude x)) rt).
Proof.
  intros Hi Ht Ho Hl1 Hon He Hm2 Hen Hticket.
  unfold Sensor.extra_state_attributes.
  rewrite (get_journey_present d trip_index (j, rt) Hi).
  cbn [obind Sensor.unpack fst snd].
  assert (get_first_nonwalking_leg (legs j) = Ok (Some o)) as Hfwd
    by (rewrite Ho; apply scan_forward; assumption).
  assert (get_first_nonwalking_leg (reverse (legs j)) = Ok (Some e)) as Hrev
    by (rewrite He; apply scan_backward; assumption).
  rewrite (count_trip_changes_every_leg _ Ht), Hticket, Hfwd, Hrev.
  cbn [of_result obind Sensor.leg_attr Sensor.ticket_attr id].
  destruct Hon as (tr & Htr & _). unfold Sensor.transportation_attr.
  rewrite Htr. cbn [obind].
  eexists. split; [reflexivity|].
  repeat split; vm_compute; reflexivity.
Qed.

(** The theorem for the journey walk, coach and its adult ticket. *)
Lemma extra_state_attributes_endpoints_witness :
  exists attrs,
    Sensor.extra_state_attributes render_cents (Some sensor_data) 0 "ADULT"
    = Return attrs
    /\ attrs !! "origin_stop_id" = Some (VStr "stop A")
    /\ attrs !! "origin_name" = Some (VStr "stop A")
    /\ attrs !! "destination_stop_id" = Some (VStr "stop B")
    /\ attrs !! "destination_name" = Some (VStr "stop B")
    /\ attrs !! "fare_type" = Some (VStr "ADULT")
    /\ attrs !! "fare_price"
       = Some (VStr (render_cents (mkDecimal 450 (-2))))
    /\ attrs !! "latitude" = Some VNone
    /\ attrs !! "longitude" = Some VNone.
Proof.
  apply (extra_state_attributes_endpoints render_cents sensor_data 0
           (a_journey [walk_leg; coach_leg]) None "ADULT"
           [walk_leg] [] [walk_leg] [] coach_leg coach_leg
           (a_ticket "ADULT" 450)).
  - reflexivity.
  - repeat constructor; eexists; reflexivity.
  - reflexivity.
  - repeat constructor.
    + eexists. reflexivity.
    + rewrite <- nonwalkingb_spec. vm_compute. discriminate.
  - apply nonwalkingb_spec. reflexivity.
  - reflexivity.
  - constructor.
  - apply nonwalkingb_spec. reflexivity.
  - reflexivity.
Defined.

(** X21.  For a journey with walking legs only, the attributes of the journey
    sensor are not computed: both scans return [None] and reading the origin
    of the absent leg raises [AttributeError]. *)
Theorem extra_state_attributes_walk_only (str_decimal : Decimal -> string)
  (d : list (Journey * option FeedEntity)) (trip_index : nat) (j : Journey)
  (rt : option FeedEntity) (fare_type : string) :
  d !! trip_index = Some (j, rt) ->
  Forall passed_over (legs j) ->
  exists msg,
    Sensor.extra_state_attributes str_decimal (Some d) trip_index fare_type
    = Throw (Exn (AttributeError msg)).
Proof.
  intros Hi Hall. unfold Sensor.extra_state_attributes.
  rewrite (get_journey_present d trip_index (j, rt) Hi).
  cbn [obind Sensor.unpack fst snd].
  destruct (scan_walk_only (legs j) Hall) as [-> ->].
  cbn [of_result obind Sensor.leg_attr]. eexists. reflexivity.
Qed.

(** The theorem for the walk of the second journey. *)
Lemma extra_state_attributes_walk_only_witness :
  exists msg,
    Sensor.extra_state_attributes render_cents (Some sensor_data) 1 "ADULT"
    = Throw (Exn (AttributeError msg)).
Proof.
  apply (extra_state_attributes_walk_only render_cents sensor_data 1
           (a_journey [walk_leg]) None "ADULT").
  - reflexivity.
  - repeat constructor.
    + eexists. reflexivity.
    + rewrite <- nonwalkingb_spec. vm_compute. discriminate.
Defined.

(** ** Calibrated light: results *)

Section LightFacts.

Import CalibratedLight.

Lemma clamp_rgb_range (v : Z) : 0 <= clamp_rgb v <= 255.
Proof. unfold clamp_rgb. lia. Qed.

Lemma clamp_rgb_inside (v : Z) : 0 <= v <= 255 -> clamp_rgb v = v.
Proof. unfold clamp_rgb. lia. Qed.

Lemma subscript_cases (t : list Z) (i : nat) :
  (exists x, t !! i = Some x /\ subscript t i = Return x)
  \/ ((length t <= i)%nat /\ exists msg, subscript t i = Throw (IndexError msg)).
Proof.
  unfold subscript. destruct (t !! i) as [x|] eqn:E.
  - left. eauto.
  - right. apply lookup_ge_None in E. eauto.
Qed.

(** One channel: its value when colour and calibration reach the index, and
    [IndexError] when one of them is too short. *)
Lemma channel_cases (cal c : list Z) (m : Z) (i : nat) :
  (exists x k, c !! i = Some x /\ cal !! i = Some k
               /\ channel cal (Some c) m i = Return (clamp_rgb (x + k * m)))
  \/ (((length c <= i)%nat \/ (length cal <= i)%nat)
      /\ exists msg, channel cal (Some c) m i = Throw (IndexError msg)).
Proof.
  unfold channel, subscript_color.
  destruct (subscript_cases c i) as [(x & Hx & ->)|[Hlen [msg ->]]];
    cbn [obind].
  - destruct (subscript_cases cal i) as [(k & Hk & ->)|[Hlen [msg ->]]];
      cbn [obind].
    + left. eauto.
    + right. eauto.
  - right. eauto.
Qed.


End LightFacts.

(** The ways [apply_calibration] ends. *)
Lemma apply_calibration_shape (calibration : list Z)
  (color_rgb : option (list Z)) (invert : bool) :
  match CalibratedLight.apply_calibration calibration color_rgb invert with
  | Return rgb =>
      exists c, color_rgb = Some c /\ (3 <= length c)%nat
                /\ (3 <= length calibration)%nat
                /\ length rgb = 3%nat
                /\ Forall (fun x => 0 <= x <= 255) rgb
  | Throw (TypeError _) => color_rgb = None
  | Throw (IndexError _) =>
      exists c, color_rgb = Some c
                /\ ((length c < 3)%nat \/ (length calibration < 3)%nat)
  | Throw (Exn _) => False
  end.
Proof.
  unfold CalibratedLight.apply_calibration.
  destruct color_rgb as [c|]; [|reflexivity].
  set (m := if invert then -1 else 1).
  destruct (channel_cases calibration c m 0)
    as [(x0 & k0 & Hx0 & Hk0 & ->)|[Hlen [msg ->]]]; cbn [obind];
    [|exists c; split; [reflexivity|lia]].
  destruct (channel_cases calibration c m 1)
    as [(x1 & k1 & Hx1 & Hk1 & ->)|[Hlen [msg ->]]]; cbn [obind];
    [|exists c; split; [reflexivity|lia]].
  destruct (channel_cases calibration c m 2)
    as [(x2 & k2 & Hx2 & Hk2 & ->)|[Hlen [msg ->]]]; cbn [obind];
    [|exists c; split; [reflexivity|lia]].
  exists c. apply lookup_lt_Some in Hx2, Hk2.
  split; [reflexivity|]. split; [lia|]. split; [lia|].
  split; [reflexivity|].
  repeat constructor; apply clamp_rgb_range.
Qed.

(** X22.  [apply_calibration] returns exactly when the colour is a sequence
    of at least three values and the calibration has at least three values,
    and then every channel of the result lies between 0 and 255, whatever the
    inputs were.  A colour that is [None] raises [TypeError]; a colour or a
    calibration shorter than three raises [IndexError]. *)
Theorem apply_calibration_outcome (calibration : list Z)
  (color_rgb : option (list Z)) (invert : bool) :
  match CalibratedLight.apply_calibration calibration color_rgb invert with
  | Return rgb =>
      exists c, color_rgb = Some c /\ (3 <= length c)%nat
                /\ (3 <= length calibration)%nat
                /\ length rgb = 3%nat
                /\ Forall (fun x => 0 <= x <= 255) rgb
  | Throw (TypeError _) => color_rgb = None
  | Throw (IndexError _) =>
      exists c, color_rgb = Some c
                /\ ((length c < 3)%nat \/ (length calibration < 3)%nat)
  | Throw (Exn _) => False
  end.
Proof. apply apply_calibration_shape. Qed.



(** X24.  Whenever [async_turn_on] gets to call the service, the data it
    hands over carry every keyword argument other than the colour unchanged,
    the entity id of the wrapped light unless a keyword argument of that name
    overrides it, and, when a colour was given, that colour calibrated (not
    inverted); without a colour argument no colour is sent. *)
Theorem turn_on_data_forwards (self : CalibratedLight.Light)
  (kwargs data : gmap string pyvalue) :
  CalibratedLight.turn_on_data self kwargs = Return data ->
  (forall k, k <> "rgb_color" -> k <> "entity_id" ->
     data !! k = kwargs !! k)
  /\ data !! "entity_id"
     = Some (match kwargs !! "entity_id" with
             | Some v => v
             | None => VStr (CalibratedLight._light_entity_id self)
             end)
  /\ match kwargs !! "rgb_color" with
     | None => data !! "rgb_color" = None
     | Some v =>
         exists t rgb,
           v = VTuple t
           /\ CalibratedLight.apply_calibration
                (CalibratedLight._calibration_rgb self) (Some t) false
              = Return rgb
           /\ data !! "rgb_color" = Some (VTuple rgb)
     end.
Proof.
  unfold CalibratedLight.turn_on_data.
  set (data0 := kwargs ∪ {["entity_id" :=
                  VStr (CalibratedLight._light_entity_id self)]}).
  assert (forall k, k <> "entity_id" -> data0 !! k = kwargs !! k) as Hother.
  { intros k Hk. unfold data0. apply lookup_union_l.
    apply lookup_singleton_ne. congruence. }
  assert (data0 !! "entity_id"
          = Some (match kwargs !! "entity_id" with
                  | Some v => v
                  | None => VStr (CalibratedLight._light_entity_id self)
                  end)) as Hid.
  { unfold data0. rewrite lookup_union.
    destruct (kwargs !! "entity_id") as [v|]; rewrite lookup_singleton_eq;
      reflexivity. }
  rewrite (Hother "rgb_color") by discriminate.
  destruct (kwargs !! "rgb_color") as [v|] eqn:Hrgb.
  - destruct v as [|s|z|q|dt|k|t]; try discriminate.
    + case_bool_decide; [discriminate|].
      destruct (CalibratedLight.subscript _ 0); discriminate.
    + destruct (CalibratedLight.apply_calibration _ (Some t) false)
        as [rgb|e] eqn:Hcal; cbn [obind]; [|discriminate].
      intros [= <-]. split; [|split].
      * intros k Hk1 Hk2. rewrite lookup_insert_ne by congruence.
        apply Hother, Hk2.
      * rewrite lookup_insert_ne by discriminate. exact Hid.
      * exists t, rgb. split; [reflexivity|]. split; [exact Hcal|].
        apply lookup_insert_eq.
  - intros [= <-]. split; [|split].
    + intros k _ Hk2. apply Hother, Hk2.
    + exact Hid.
    + rewrite (Hother "rgb_color") by discriminate. exact Hrgb.
Qed.

(** The theorem for a call with a brightness and a red that saturates. *)
Lemma turn_on_data_forwards_witness :
  exists data,
    CalibratedLight.turn_on_data (a_light [20; 0; -30] None)
      (<["brightness" := VInt 128]> {["rgb_color" := VTuple [250; 10; 10]]})
    = Return data
    /\ data !! "brightness" = Some (VInt 128)
    /\ data !! "entity_id" = Some (VStr "light.desk")
    /\ data !! "rgb_color" = Some (VTuple [255; 10; 0]).
Proof.
  destruct (CalibratedLight.turn_on_data (a_light [20; 0; -30] None)
              (<["brightness" := VInt 128]>
                 {["rgb_color" := VTuple [250; 10; 10]]}))
    as [data|e] eqn:Hrun; [|vm_compute in Hrun; discriminate Hrun].
  exists data. split; [reflexivity|].
  destruct (turn_on_data_forwards _ _ _ Hrun) as (Hk & Hid & Hrgb).
  split; [|split].
  - rewrite Hk by discriminate. vm_compute. reflexivity.
  - rewrite Hid. vm_compute. reflexivity.
  - replace ((<["brightness" := VInt 128]>
                {["rgb_color" := VTuple [250; 10; 10]]} : gmap string pyvalue)
             !! "rgb_color")
      with (Some (VTuple [250; 10; 10])) in Hrgb by (vm_compute; reflexivity).
    destruct Hrgb as (t & rgb & [= <-] & Hcal & ->).
    vm_compute in Hcal. injection Hcal as <-. reflexivity.
Defined.

(** X25.  The colour the entity reports is the colour of the wrapped light
    with the calibration inverted, each channel between 0 and 255.  Reading
    it raises [AttributeError] while the state of the wrapped light is
    unknown, and [TypeError] when that state has no colour. *)
Theorem rgb_color_outcome (self : CalibratedLight.Light) :
  match CalibratedLight.rgb_color self with
  | Return rgb =>
      exists st c,
        CalibratedLight._light_state self = Some st
        /\ CalibratedLight.attr_rgb_color st = Some c
        /\ CalibratedLight.apply_calibration
             (CalibratedLight._calibration_rgb self) (Some c) true
           = Return rgb
        /\ Forall (fun x => 0 <= x <= 255) rgb
  | Throw (Exn (AttributeError _)) => CalibratedLight._light_state self = None
  | Throw (TypeError _) =>
      exists st, CalibratedLight._light_state self = Some st
                 /\ CalibratedLight.attr_rgb_color st = None
  | Throw (IndexError _) =>
      exists st c,
        CalibratedLight._light_state self = Some st
        /\ CalibratedLight.attr_rgb_color st = Some c
        /\ ((length c < 3)%nat
            \/ (length (CalibratedLight._calibration_rgb self) < 3)%nat)
  | Throw (Exn _) => False
  end.
Proof.
  unfold CalibratedLight.rgb_color.
  destruct (CalibratedLight._light_state self) as [st|]; [|reflexivity].
  pose proof (apply_calibration_shape (CalibratedLight._calibration_rgb self)
                (CalibratedLight.attr_rgb_color st) true) as H.
  destruct (CalibratedLight.apply_calibration _ _ true)
    as [rgb|[e|msg|msg]] eqn:Hcal.
  - destruct H as (c & Hc & _ & _ & _ & Hrange).
    exists st, c. rewrite Hc in Hcal. auto.
  - destruct H.
  - exists st. auto.
  - destruct H as (c & Hc & Hlen). exists st, c. auto.
Qed.

(** X26.  [get_realtime_feed] sends exactly one request, to the vehicle
    position endpoint of the mode, without parameters and with the API key in
    its [Authorization] header.  An answer with a status from 400 to 599
    raises [HTTPError] with that status whatever its body; any other status
    with a body that decodes to a feed returns that feed. *)
Theorem get_realtime_feed_outcome (env : Env) (api_key mode : string)
  (w : World) (answer : Response) :
  http_get env (length (sent w)) (feed_request api_key mode) = answer ->
  snd (get_realtime_feed env api_key mode w)
  = mkWorld
      (sent w
       ++ [mkRequest
             ("https://api.transport.nsw.gov.au/v1/gtfs/vehiclepos/" +:+ mode)
             ∅ [("Authorization", "apikey " +:+ api_key)]])
      (clock_reads w) (lru w)
  /\ (400 <= status_code answer < 600 ->
      fst (get_realtime_feed env api_key mode w)
      = Raise (HTTPError (status_code answer)))
  /\ (forall feed, ~ (400 <= status_code answer < 600) ->
        body answer = FeedPayload feed ->
        fst (get_realtime_feed env api_key mode w) = Ok feed).
Proof.
  intros Hans. split; [apply get_realtime_feed_sends|].
  unfold get_realtime_feed, bind, requests_get, raise_for_status.
  unfold feed_request in Hans. rewrite Hans. split.
  - intros Hst. rewrite (bool_decide_eq_true_2 _ Hst). reflexivity.
  - intros feed Hst Hbody. rewrite (bool_decide_eq_false_2 _ Hst).
    unfold ret at 1. cbn [fst]. rewrite Hbody. reflexivity.
Qed.

(** The theorem for the ferries on a server that answers 404. *)
Lemma get_realtime_feed_outcome_witness :
  fst (get_realtime_feed (an_env [] (refusing_server 404)) "key" "ferries"
         world0)
  = Raise (HTTPError 404).
Proof.
  refine (proj1 (proj2 (get_realtime_feed_outcome
    (an_env [] (refusing_server 404)) "key" "ferries" world0
    (mkHttpResponse 404 Garbage) eq_refl)) _).
  cbn [status_code]. lia.
Defined.
